(** * oc_utils: locating the provenance graph of an entity

    A shallow embedding of [get_provenance_graph] (src/oc_utils/src.py) and
    the properties its specification states about it.

    Modelling choices.
    - A Python [str] is a [string]: a sequence of code points below 256
      (Latin-1), on which the built-ins below agree with CPython.  [int()]
      has the interpreter's default limit of 4300 digits
      (sys.int_info.default_max_str_digits).
    - Exceptions are values of [exn]; a computation that may raise has a
      type [result A], sequenced with [do x <- c ;; k].
    - The directory tree is an immutable [node]; a path is modelled by what
      the operating system finds at it ([path]).
    - A [for] loop is [for_each], whose body says how control leaves each
      iteration ([flow]): to the next item, by [break], or by [return]. *)

From Stdlib Require Import ZArith NArith List String Ascii Bool Lia SpecFloat.
From Stdlib Require Import Sorted Permutation.
Import ListNotations.
Set Warnings "-register-all".
Open Scope string_scope.
Open Scope list_scope.
Open Scope Z_scope.

(** ** Exceptions and results *)

Inductive exn : Set :=
| ValueError | KeyError | TypeError
| FileNotFoundError | NotADirectoryError | IsADirectoryError
| BadZipFile | JSONDecodeError | UnicodeDecodeError
| OtherError (class_name : string).

Inductive result (A : Type) : Type :=
| Ok (a : A)
| Raise (e : exn).
Arguments Ok {A} a.
Arguments Raise {A} e.

Definition bind {A B : Type} (c : result A) (k : A -> result B) : result B :=
  match c with
  | Ok a => k a
  | Raise e => Raise e
  end.

Notation "'do' x <- c ;; k" := (bind c (fun x => k))
  (at level 10, x name, c at level 100, k at level 200).

(** [[f(x) for x in l]], stopping at the first exception. *)
Fixpoint mapM {A B : Type} (f : A -> result B) (l : list A) : result (list B) :=
  match l with
  | [] => Ok []
  | x :: l' => do y <- f x ;; do ys <- mapM f l' ;; Ok (y :: ys)
  end.

(** ** Python strings *)

Module Str.

Definition code (c : ascii) : N := N_of_ascii c.

(** [s.split(sep)] for a one-character separator: never the empty list. *)
Fixpoint split (sep : ascii) (s : string) : list string :=
  match s with
  | EmptyString => [""]
  | String c r =>
      if Ascii.eqb c sep then "" :: split sep r
      else match split sep r with
           | h :: t => String c h :: t
           | [] => [String c ""]
           end
  end.

Fixpoint take (n : nat) (s : string) : string :=
  match n, s with
  | S n', String c r => String c (take n' r)
  | _, _ => ""
  end.

Fixpoint drop (n : nat) (s : string) : string :=
  match n, s with
  | S n', String _ r => drop n' r
  | _, _ => s
  end.

(** Index of the first occurrence of [c] in [s], if any. *)
Fixpoint index_of (c : ascii) (s : string) : option nat :=
  match s with
  | EmptyString => None
  | String d r =>
      if Ascii.eqb d c then Some O
      else match index_of c r with
           | Some i => Some (S i)
           | None => None
           end
  end.

(** [s.find(c, start)]: lowest index at or after [start], or -1. *)
Definition find (c : ascii) (start : nat) (s : string) : Z :=
  match index_of c (drop start s) with
  | Some i => Z.of_nat (start + i)
  | None => -1
  end.

(** [s[:stop]], with Python's treatment of negative and large bounds. *)
Definition slice_to (s : string) (stop : Z) : string :=
  let len := Z.of_nat (String.length s) in
  let stop' := if stop <? 0 then Z.max 0 (stop + len) else Z.min stop len in
  take (Z.to_nat stop') s.

Fixpoint startswith (s p : string) : bool :=
  match p, s with
  | EmptyString, _ => true
  | String a p', String b s' => Ascii.eqb a b && startswith s' p'
  | String _ _, EmptyString => false
  end.

(** [s.removeprefix(p)] *)
Definition removeprefix (s p : string) : string :=
  if startswith s p then drop (String.length p) s else s.

(** Decimal digits [0-9]: the only code points below 256 with a decimal
    value. *)
Definition is_decimal (c : ascii) : bool :=
  (48 <=? code c)%N && (code c <=? 57)%N.

(** Code points below 256 with the Unicode digit property: [0-9] and the
    superscripts U+00B2, U+00B3, U+00B9. *)
Definition is_digit (c : ascii) : bool :=
  is_decimal c || (code c =? 178)%N || (code c =? 179)%N || (code c =? 185)%N.

Fixpoint all_chars (p : ascii -> bool) (s : string) : bool :=
  match s with
  | EmptyString => true
  | String c r => p c && all_chars p r
  end.

(** [s.isdigit()] and [s.isdecimal()]: false on the empty string. *)
Definition isdigit (s : string) : bool :=
  match s with
  | EmptyString => false
  | _ => all_chars is_digit s
  end.

Definition isdecimal (s : string) : bool :=
  match s with
  | EmptyString => false
  | _ => all_chars is_decimal s
  end.

(** *** [int(s)]

    CPython first maps the string to ASCII
    (_PyUnicode_TransformDecimalAndSpaceToASCII), then parses it in base
    10 (PyLong_FromString). *)

(** Py_ISSPACE: the whitespace of the C parser. *)
Definition Py_ISSPACE (c : ascii) : bool :=
  ((9 <=? code c)%N && (code c <=? 13)%N) || (code c =? 32)%N.

(** Py_UNICODE_ISSPACE on code points below 256. *)
Definition Py_UNICODE_ISSPACE (c : ascii) : bool :=
  Py_ISSPACE c
  || ((28 <=? code c)%N && (code c <=? 31)%N)
  || (code c =? 133)%N || (code c =? 160)%N.

(** Code points below 127 are kept, other whitespace becomes a space, and
    the first other character becomes a question mark that ends the
    string. *)
Fixpoint to_ascii (s : string) : string :=
  match s with
  | EmptyString => ""
  | String c r =>
      if (code c <? 127)%N then String c (to_ascii r)
      else if Py_UNICODE_ISSPACE c then String " " (to_ascii r)
      else "?"
  end.

Fixpoint skip_spaces (s : string) : string :=
  match s with
  | String c r => if Py_ISSPACE c then skip_spaces r else s
  | EmptyString => ""
  end.

Definition digit_value (c : ascii) : Z := Z.of_N (code c) - 48.

(** The scan over digits and underscores: [prev_us] says that the
    previous character was an underscore, [ndigits] counts the digits
    seen, [acc] is their value.  Two underscores in a row and a trailing
    underscore are errors. *)
Fixpoint scan_digits (prev_us : bool) (ndigits : nat) (acc : Z) (s : string)
  : option (Z * nat * string) :=
  match s with
  | String c r =>
      if is_decimal c then scan_digits false (S ndigits) (10 * acc + digit_value c) r
      else if Ascii.eqb c "_" then
        (if prev_us then None else scan_digits true ndigits acc r)
      else if prev_us then None else Some (acc, ndigits, s)
  | EmptyString => if prev_us then None else Some (acc, ndigits, s)
  end.

(** The default of sys.get_int_max_str_digits(): a string with more
    digits is refused. *)
Definition int_max_str_digits : Z := 4300.

(** PyLong_FromString in base 10: optional whitespace, optional sign,
    digits with single underscores between them, optional whitespace. *)
Definition PyLong_FromString (s : string) : option Z :=
  let s1 := skip_spaces s in
  let '(negative, s2) :=
    match s1 with
    | String c r =>
        if Ascii.eqb c "+" then (false, r)
        else if Ascii.eqb c "-" then (true, r)
        else (false, s1)
    | EmptyString => (false, s1)
    end in
  match s2 with
  | String c _ =>
      if Ascii.eqb c "_" then None            (* may not start with an underscore *)
      else match scan_digits false O 0 s2 with
           | Some (v, ndigits, rest) =>
               if int_max_str_digits <? Z.of_nat ndigits then None  (* too many digits *)
               else
                 match ndigits with
                 | O => None                    (* no digit at all *)
                 | S _ =>
                     match skip_spaces rest with
                     | EmptyString => Some (if negative then - v else v)
                     | String _ _ => None       (* trailing junk *)
                     end
                 end
           | None => None
           end
  | EmptyString => None
  end.

Definition int (s : string) : result Z :=
  match PyLong_FromString (to_ascii s) with
  | Some v => Ok v
  | None => Raise ValueError
  end.

End Str.

(** ** [sorted(l, key=...)]

    The keys are computed first, one per item and in order; the items are
    then sorted by key, stably.  Insertion from the right is a stable sort,
    and a stable sort has only one result. *)

Section Sorted.

Context {A : Type}.

Fixpoint insert (kx : Z * A) (l : list (Z * A)) : list (Z * A) :=
  match l with
  | [] => [kx]
  | ky :: l' => if fst kx <=? fst ky then kx :: l else ky :: insert kx l'
  end.

Definition sort_by_key (l : list (Z * A)) : list (Z * A) :=
  fold_right insert [] l.

Definition sorted (key : A -> result Z) (l : list A) : result (list A) :=
  do keyed <- mapM (fun x => do k <- key x ;; Ok (k, x)) l ;;
  Ok (map snd (sort_by_key keyed)).

End Sorted.

(** ** Python values read from JSON *)

(** What [json.load] can produce.  A [dict] is the list of its items in
    insertion order; the keys of a JSON object are strings. *)
Inductive pyval : Type :=
| PNone
| PBool (b : bool)
| PInt (n : Z)
| PFloat (f : spec_float)
| PStr (s : string)
| PList (l : list pyval)
| PDict (items : list (string * pyval)).

Fixpoint lookup {V : Type} (key : string) (items : list (string * V)) : option V :=
  match items with
  | [] => None
  | (k, v) :: rest => if String.eqb k key then Some v else lookup key rest
  end.

(** [for obj in v]: the items a [for] loop visits, or the [TypeError] of a
    value that is not iterable. *)
Definition iter (v : pyval) : result (list pyval) :=
  match v with
  | PList l => Ok l
  | PDict items => Ok (map (fun kv => PStr (fst kv)) items)
  | PStr s => Ok (map (fun c => PStr (String c "")) (list_ascii_of_string s))
  | PNone | PBool _ | PInt _ | PFloat _ => Raise TypeError
  end.

(** [v[key]] for a string [key]. *)
Definition getitem (v : pyval) (key : string) : result pyval :=
  match v with
  | PDict items =>
      match lookup key items with
      | Some x => Ok x
      | None => Raise KeyError
      end
  | _ => Raise TypeError
  end.

(** [v == s] for a string [s]: no value but the same string is equal. *)
Definition eq_str (v : pyval) (s : string) : bool :=
  match v with
  | PStr t => String.eqb t s
  | _ => false
  end.

(** ** The directory tree *)

(** A regular file is seen through [ZipFile]: either it is not a zip
    archive, or it is one with named entries, each holding what opening it
    and [json.load] make of it: the parsed value, or the exception raised
    (JSONDecodeError for text that is not JSON, UnicodeDecodeError for
    bytes that are not UTF-8, and so on). *)
Inductive file : Type :=
| NotZip
| Zip (members : list (string * result pyval)).

Inductive node : Type :=
| File (f : file)
| Dir (entries : list (string * node)).

(** What the operating system finds at a path, or the error of using it. *)
Definition path : Type := result node.

(** [os.listdir(p)]: the names in the directory, in the order the system
    lists them. *)
Definition listdir (p : path) : result (list string) :=
  do n <- p ;;
  match n with
  | Dir entries => Ok (map fst entries)
  | File _ => Raise NotADirectoryError
  end.

(** [os.path.join(p, name)] for an entry name. *)
Definition join (p : path) (name : string) : path :=
  do n <- p ;;
  match n with
  | Dir entries =>
      match lookup name entries with
      | Some child => Ok child
      | None => Raise FileNotFoundError
      end
  | File _ => Raise NotADirectoryError
  end.

(** The last member of an archive with a given name: the one [ZipFile]
    keeps in its name table. *)
Fixpoint getinfo {V : Type} (name : string) (members : list (string * V)) : option V :=
  match members with
  | [] => None
  | (k, v) :: rest =>
      match getinfo name rest with
      | Some later => Some later
      | None => if String.eqb k name then Some v else None
      end
  end.

(** [with ZipFile(p) as archive: with archive.open(name) as f: json.load(f)] *)
Definition load_zip_json (p : path) (name : string) : result pyval :=
  do n <- p ;;
  match n with
  | Dir _ => Raise IsADirectoryError
  | File NotZip => Raise BadZipFile
  | File (Zip members) =>
      match getinfo name members with
      | None => Raise KeyError
      | Some loaded => loaded
      end
  end.

(** ** Loops *)

Inductive flow : Type :=
| Next
| Break
| Return (v : pyval).

(** [for x in xs: body]: [Some v] when the body returned [v] from the
    function, [None] when the loop ended and control goes on after it. *)
Fixpoint for_each {A : Type} (xs : list A) (body : A -> result flow)
  : result (option pyval) :=
  match xs with
  | [] => Ok None
  | x :: rest =>
      do c <- body x ;;
      match c with
      | Next => for_each rest body
      | Break => Ok None
      | Return v => Ok (Some v)
      end
  end.

(** After an inner loop: leave the function if it returned, else go on
    with [otherwise]. *)
Definition after_loop (r : option pyval) (otherwise : flow) : result flow :=
  match r with
  | Some v => Ok (Return v)
  | None => Ok otherwise
  end.

(** ** The locator (src/oc_utils/src.py) *)

(** Lines 15-17: the three locals computed from the identifier. *)
Definition digits_of (entity_iri : string) : string :=
  last (Str.split "/" entity_iri) "".

Definition supplier_prefix_of (entity_iri : string) : string :=
  let digits := digits_of entity_iri in
  Str.slice_to digits (Str.find "0" 1 digits + 1).

Definition sequential_number_of (entity_iri : string) : result Z :=
  Str.int (Str.removeprefix (digits_of entity_iri) (supplier_prefix_of entity_iri)).

(** Lines 31-33: the scan of the parsed sequence. *)
Definition scan_data (entity_iri : string) (data : list pyval) : result (option pyval) :=
  for_each data (fun obj =>
    do id <- getitem obj "@id" ;;
    if eq_str id (entity_iri ++ "/prov/") then Ok (Return obj) else Ok Next).

(** Lines 26-33: inside the chosen level-3 directory. *)
Definition visit_dir3 (entity_iri : string) (dir3_path : path) : result (option pyval) :=
  let prov_dir_path := join dir3_path "prov" in
  do data <- load_zip_json (join prov_dir_path "se.zip") "se.json" ;;
  do objs <- iter data ;;
  scan_data entity_iri objs.

(** Lines 24-34: the loop over the digit-named entries of a level-2
    directory. *)
Definition visit_dir2 (entity_iri : string) (sequential_number : Z) (dir2_path : path)
  : result (option pyval) :=
  do names <- listdir dir2_path ;;
  do ordered <- sorted Str.int (filter Str.isdigit names) ;;
  for_each ordered (fun subsubdir =>
    do n <- Str.int subsubdir ;;
    if sequential_number <? n then
      do r <- visit_dir3 entity_iri (join dir2_path subsubdir) ;;
      after_loop r Break
    else Ok Next).

(** Lines 21-35: the loop over the entries of the level-1 directory. *)
Definition visit_dir1 (entity_iri : string) (sequential_number : Z) (dir1_path : path)
  : result (option pyval) :=
  do names <- listdir dir1_path ;;
  do ordered <- sorted Str.int names ;;
  for_each ordered (fun subdir =>
    do n <- Str.int subdir ;;
    if sequential_number <? n then
      do r <- visit_dir2 entity_iri sequential_number (join dir1_path subdir) ;;
      after_loop r Break
    else Ok Next).

(** The function: [Ok (Some obj)] when it returns [obj], [Ok None] when it
    returns [None], [Raise e] when it raises. *)
Definition get_provenance_graph (entity_iri : string) (data_root : path)
  : result (option pyval) :=
  let supplier_prefix := supplier_prefix_of entity_iri in
  do sequential_number <- sequential_number_of entity_iri ;;
  do names <- listdir data_root ;;
  for_each names (fun dir =>
    if String.eqb dir supplier_prefix then
      do r <- visit_dir1 entity_iri sequential_number (join data_root dir) ;;
      after_loop r Next
    else Ok Next).

(** ** The words of the specification *)

(** Every name has an integer value. *)
Definition numeric (names : list string) : Prop :=
  forall m, In m names -> exists j, Str.int m = Ok j.

(** "Sort by numeric value ascending; scan in that order; select the first
    whose integer value is strictly greater than [seq]": [n] has the least
    value above [seq], and of the names with that value it is the one
    listed first. *)
Definition first_above (seq : Z) (names : list string) (n : string) : Prop :=
  exists k before after,
    names = before ++ n :: after /\
    Str.int n = Ok k /\ seq < k /\
    (forall m j, In m names -> Str.int m = Ok j -> seq < j -> k <= j) /\
    (forall m, In m before -> Str.int m <> Ok k).

(** No name has a value strictly greater than [seq]. *)
Definition none_above (seq : Z) (names : list string) : Prop :=
  forall m j, In m names -> Str.int m = Ok j -> j <= seq.

(** A provenance object: a record with an [@id] field. *)
Definition prov_object (obj : pyval) : Prop :=
  exists items v, obj = PDict items /\ lookup "@id" items = Some v.

(** The identity rule: [obj] belongs to the entity iff its [@id] is the
    identifier followed by [/prov/]. *)
Definition belongs_to (entity_iri : string) (obj : pyval) : Prop :=
  exists items,
    obj = PDict items /\ lookup "@id" items = Some (PStr (entity_iri ++ "/prov/")).

(** Steps 2 to 6 of the algorithm: [data] is the parsed [se.json] of the
    archive in the level-3 shard that the range rule selects for the
    identifier under the directory [root].  The names the rule ranges over
    are integers, as the data model has them. *)
Definition shard_archive (entity_iri : string) (root : list (string * node))
    (data : pyval) : Prop :=
  exists seq level1 n2 level2 n3 shard,
    sequential_number_of entity_iri = Ok seq /\
    lookup (supplier_prefix_of entity_iri) root = Some (Dir level1) /\
    numeric (map fst level1) /\
    first_above seq (map fst level1) n2 /\
    lookup n2 level1 = Some (Dir level2) /\
    numeric (filter Str.isdigit (map fst level2)) /\
    first_above seq (filter Str.isdigit (map fst level2)) n3 /\
    lookup n3 level2 = Some shard /\
    load_zip_json (join (join (Ok shard) "prov") "se.zip") "se.json" = Ok data.

(** The characters the C parser of [int] can consume: digits, whitespace,
    signs and the underscore; and the characters of a string that [int]
    can accept, which add the two whitespace code points above 127. *)
Definition parser_char (c : ascii) : bool :=
  Str.is_decimal c || Str.Py_ISSPACE c
  || Ascii.eqb c "+" || Ascii.eqb c "-" || Ascii.eqb c "_".

Definition literal_char (c : ascii) : bool :=
  parser_char c || (Str.code c =? 133)%N || (Str.code c =? 160)%N.

(** The value of a name, 0 when it has none. *)
Definition value_of (name : string) : Z :=
  match Str.int name with
  | Ok k => k
  | Raise _ => 0
  end.

(** The entries of a directory with digit-only names. *)
Definition digit_named (entries : list (string * node)) : list (string * node) :=
  filter (fun e => Str.isdigit (fst e)) entries.

(** ** Sample trees *)

Module Sample.

(** A provenance object of an entity, tagged with the shard holding it. *)
Definition snapshot (entity_iri tag : string) : pyval :=
  PDict [("@graph", PList [PStr tag]); ("@id", PStr (entity_iri ++ "/prov/"))].

(** A level-3 directory: [prov/se.zip] with the entry [se.json]. *)
Definition shard (objs : list pyval) : node :=
  Dir [("prov", Dir [("se.zip", File (Zip [("se.json", Ok (PList objs))]))])].

(** The scenario of the specification: identifier 0605200, level 1
    [060], level 2 [1000] and [6000], level 3 [5100] and [5300]. *)
Definition br_0605200 : string := "https://w3id.org/oc/meta/br/0605200".

Definition dir_6000 : list (string * node) :=
  [("5100", shard [snapshot br_0605200 "6000/5100"]);
   ("5300", shard [snapshot br_0605200 "6000/5300"])].

Definition dir_060 : list (string * node) :=
  [("1000", Dir [("1000", shard [snapshot br_0605200 "1000/1000"])]);
   ("6000", Dir dir_6000)].

Definition scenario : list (string * node) := [("060", Dir dir_060)].

(** Level 2 named 100, 500 and 1000, listed out of order. *)
Definition br_060250 : string := "https://w3id.org/oc/meta/br/060250".
Definition br_0601000 : string := "https://w3id.org/oc/meta/br/0601000".

Definition dir_500 : node :=
  Dir [("300", shard [snapshot br_060250 "500/300"])].

Definition three_ranges : list (string * node) :=
  [("1000", Dir [("1000", shard [snapshot br_060250 "1000/1000"])]);
   ("100", Dir [("100", shard [snapshot br_060250 "100/100"])]);
   ("500", dir_500)].

Definition ranges_tree : list (string * node) := [("060", Dir three_ranges)].

(** A level-2 directory with numeric and other entries. *)
Definition mixed_level2 : list (string * node) :=
  [("prov", Dir []);
   ("20", shard [snapshot br_0605200 "20"]);
   ("readme", File NotZip);
   ("10", shard [snapshot br_0605200 "10"])].

(** An archive holding the same [@id] twice, after another entity's
    object. *)
Definition other : pyval := snapshot "https://w3id.org/oc/meta/br/0605199" "other".
Definition first_copy : pyval := snapshot br_0605200 "first".
Definition second_copy : pyval := snapshot br_0605200 "second".

Definition duplicates : list (string * node) :=
  [("060", Dir [("6000", Dir [("5300", shard [other; first_copy; second_copy])])])].

(** An archive without the entity's object. *)
Definition elsewhere : list (string * node) :=
  [("060", Dir [("6000", Dir [("5300", shard [other])])])].

(** Identifiers without a zero after the first character. *)
Definition br_123 : string := "https://w3id.org/oc/meta/br/123".
Definition br_abc : string := "https://w3id.org/oc/meta/br/abc".

(** An identifier that is a bare supplier prefix. *)
Definition br_060 : string := "https://w3id.org/oc/meta/br/060".

(** The scenario with other entries beside the supplier directory. *)
Definition with_readme : list (string * node) :=
  [("readme", File NotZip); ("060", Dir dir_060); ("index", Dir [])].

(** The supplier directory with an entry that is not a number. *)
Definition with_prov_at_level2 : list (string * node) :=
  [("060", Dir (("prov", Dir []) :: dir_060))].

End Sample.

(** ** The descent, in words *)

(** [name] is one of the names [os.listdir] gives for [p]. *)
Definition listed (p : path) (name : string) : Prop :=
  exists names, listdir p = Ok names /\ In name names.

(** The range rule selects the entry [dir2] at level 2 for the
    identifier, whose sequential number is [seq]. *)
Definition selected_dir2 (entity_iri : string) (root : list (string * node))
    (seq : Z) (dir2 : node) : Prop :=
  exists level1 n2,
    sequential_number_of entity_iri = Ok seq /\
    lookup (supplier_prefix_of entity_iri) root = Some (Dir level1) /\
    numeric (map fst level1) /\
    first_above seq (map fst level1) n2 /\
    lookup n2 level1 = Some dir2.

(** The range rule selects the entry [shard] at level 3. *)
Definition selected_dir3 (entity_iri : string) (root : list (string * node))
    (shard : node) : Prop :=
  exists seq level2 n3,
    selected_dir2 entity_iri root seq (Dir level2) /\
    numeric (filter Str.isdigit (map fst level2)) /\
    first_above seq (filter Str.isdigit (map fst level2)) n3 /\
    lookup n3 level2 = Some shard.

(** No character of [s] is [c]. *)
Definition free_of (c : ascii) (s : string) : bool :=
  Str.all_chars (fun d => negb (Ascii.eqb d c)) s.

(** Names with distinct spellings have distinct values. *)
Definition distinct_values (names : list string) : Prop :=
  forall m m', In m names -> In m' names -> value_of m = value_of m' -> m = m'.

(** ** More sample trees *)

Module Edge.

Definition iri : string := Sample.br_0605200.

(** The scenario with the shard 6000/5300 replaced by [shard]. *)
Definition with_shard (shard : node) : list (string * node) :=
  [("060", Dir [("1000", Dir []); ("6000", Dir [("5100", Dir []); ("5300", shard)])])].

(** The shard whose [se.json] parses to [data]. *)
Definition holding (data : pyval) : node :=
  Dir [("prov", Dir [("se.zip", File (Zip [("se.json", Ok data)]))])].

(** A regular file where the supplier directory is expected. *)
Definition file_at_level1 : list (string * node) :=
  [("060", File NotZip); ("061", Dir [])].

(** A regular file where the level-2 directory is expected. *)
Definition file_at_level2 : list (string * node) :=
  [("060", Dir [("1000", Dir []); ("6000", File NotZip)])].

(** A level-2 directory with an entry named by the superscript two. *)
Definition superscript_two : string := String (ascii_of_nat 178) "".

Definition with_superscript : list (string * node) :=
  [("060", Dir [("6000", Dir [("5300", Dir []); (superscript_two, Dir [])])])].

(** A level-2 directory whose range ends below the sequential number,
    beside a later level-2 directory that holds the object. *)
Definition short_range : list (string * node) :=
  [("060", Dir [("6000", Dir [("5100", Sample.shard [Sample.snapshot iri "6000/5100"])]);
                ("9000", Dir [("5300", Sample.shard [Sample.snapshot iri "9000/5300"])])])].

(** The scenario listed in another order. *)
Definition dir_060_reversed : list (string * node) :=
  [("6000", Dir Sample.dir_6000);
   ("1000", Dir [("1000", Sample.shard [Sample.snapshot iri "1000/1000"])])].

End Edge.

(** ** Tactics for concrete listings *)

(** Case analysis on membership in a listing written out in full. *)
Ltac each_name H :=
  simpl in H;
  repeat match type of H with
         | _ \/ _ => destruct H as [H|H]
         end;
  try contradiction; try subst.

Ltac concrete_numeric :=
  let m := fresh "m" in
  let Hm := fresh "Hm" in
  intros m Hm; each_name Hm; eexists; vm_compute; reflexivity.

Ltac concrete_first_above k before after :=
  exists k, before, after;
  split; [reflexivity|];
  split; [vm_compute; reflexivity|];
  split; [lia|];
  split;
  [ let m := fresh "m" in
    let j := fresh "j" in
    let Hm := fresh "Hm" in
    let Hj := fresh "Hj" in
    intros m j Hm Hj ?; each_name Hm; vm_compute in Hj;
    injection Hj as <-; lia
  | let m := fresh "m" in
    let Hm := fresh "Hm" in
    intros m Hm; each_name Hm; vm_compute; discriminate ].

Ltac concrete_none_above :=
  let m := fresh "m" in
  let j := fresh "j" in
  let Hm := fresh "Hm" in
  let Hj := fresh "Hj" in
  intros m j Hm Hj; each_name Hm; vm_compute in Hj; injection Hj as <-; lia.

(** ** Results about the built-ins *)

Lemma bind_ok {A B : Type} (a : A) (k : A -> result B) : (do x <- Ok a ;; k x) = k a.
Proof. reflexivity. Qed.

Lemma lookup_In {V : Type} (key : string) (items : list (string * V)) (v : V) :
  lookup key items = Some v -> In key (map fst items).
Proof.
  induction items as [|[k w] rest IH]; simpl; [discriminate|].
  destruct (String.eqb_spec k key) as [->|Hne]; auto.
Qed.

Lemma numeric_keyed (names : list string) :
  numeric names ->
  mapM (fun x => do k <- Str.int x ;; Ok (k, x)) names
  = Ok (map (fun m => (value_of m, m)) names).
Proof.
  induction names as [|m names IH]; intros Hnum; simpl; [reflexivity|].
  destruct (Hnum m (or_introl eq_refl)) as [j Hj].
  unfold value_of at 1. rewrite Hj. simpl.
  rewrite IH; [reflexivity|].
  intros m' Hm'. apply Hnum. now right.
Qed.

(** *** The stable sort *)

Section SortFacts.

Context {A : Type}.
Implicit Types (x : Z * A) (l : list (Z * A)).

Lemma In_insert x y l : In y (insert x l) <-> y = x \/ In y l.
Proof.
  induction l as [|z l IH]; simpl.
  - intuition.
  - destruct (fst x <=? fst z); simpl; rewrite ?IH; intuition.
Qed.

Lemma In_sort_by_key y l : In y (sort_by_key l) <-> In y l.
Proof.
  induction l as [|z l IH]; simpl; [reflexivity|].
  rewrite In_insert, IH. intuition.
Qed.

(** [sort_by_key] is a stable sort: its result is in ascending order of
    key, holds the same items, and keeps the items of equal key in their
    original order. *)
Lemma insert_perm x l : Permutation (insert x l) (x :: l).
Proof.
  induction l as [|y l IH]; simpl; [reflexivity|].
  destruct (fst x <=? fst y); [reflexivity|].
  rewrite IH. apply perm_swap.
Qed.

Lemma sort_by_key_perm l : Permutation (sort_by_key l) l.
Proof.
  induction l as [|x l IH]; simpl; [reflexivity|].
  rewrite insert_perm. now constructor.
Qed.

Lemma insert_sorted x l :
  StronglySorted (fun a b => fst a <= fst b) l ->
  StronglySorted (fun a b => fst a <= fst b) (insert x l).
Proof.
  induction 1 as [|y l Hl IH Hy]; simpl.
  - repeat constructor.
  - destruct (Z.leb_spec (fst x) (fst y)) as [Hxy|Hxy].
    + constructor; [now constructor|].
      constructor; [exact Hxy|].
      rewrite Forall_forall in *. intros z Hz. specialize (Hy z Hz). lia.
    + constructor; [exact IH|].
      rewrite Forall_forall in *. intros z Hz.
      apply In_insert in Hz. destruct Hz as [->|Hz]; [lia|now apply Hy].
Qed.

Lemma sort_by_key_sorted l :
  StronglySorted (fun a b => fst a <= fst b) (sort_by_key l).
Proof.
  induction l as [|x l IH]; simpl; [constructor|now apply insert_sorted].
Qed.

Lemma sort_by_key_stable (k : Z) l :
  filter (fun a => fst a =? k) (sort_by_key l) = filter (fun a => fst a =? k) l.
Proof.
  induction l as [|x l IH]; simpl; [reflexivity|].
  rewrite <- IH. clear IH. generalize (sort_by_key l) as s.
  induction s as [|y s IHs]; simpl; [reflexivity|].
  destruct (Z.leb_spec (fst x) (fst y)) as [Hxy|Hxy]; [reflexivity|].
  simpl. rewrite IHs.
  destruct (Z.eqb_spec (fst x) k) as [Hx|Hx]; [|reflexivity].
  destruct (Z.eqb_spec (fst y) k) as [Hy|Hy]; [lia|reflexivity].
Qed.

Variable seq : Z.
Let above := fun x : Z * A => seq <? fst x.

(** The first item above [seq] after an insertion. *)
Lemma find_insert x l :
  find above (insert x l)
  = if above x
    then match find above l with
         | Some b => if fst b <? fst x then Some b else Some x
         | None => Some x
         end
    else find above l.
Proof.
  induction l as [|y l IH]; simpl.
  - destruct (above x); reflexivity.
  - destruct (fst x <=? fst y) eqn:Hxy; simpl.
    + destruct (above x) eqn:Hx; [|reflexivity].
      assert (Hy : above y = true)
        by (unfold above in *; apply Z.ltb_lt; apply Z.ltb_lt in Hx;
            apply Z.leb_le in Hxy; lia).
      rewrite Hy.
      assert (Hlt : (fst y <? fst x) = false)
        by (apply Z.ltb_ge; apply Z.leb_le in Hxy; lia).
      now rewrite Hlt.
    + destruct (above y) eqn:Hy.
      * assert (Hx : above x = true)
          by (unfold above in *; apply Z.ltb_lt; apply Z.ltb_lt in Hy;
              apply Z.leb_gt in Hxy; lia).
        rewrite Hx.
        assert (Hlt : (fst y <? fst x) = true)
          by (apply Z.ltb_lt; apply Z.leb_gt in Hxy; lia).
        now rewrite Hlt.
      * exact IH.
Qed.

Lemma find_above_In l b : find above l = Some b -> In b l /\ seq < fst b.
Proof.
  intros H. apply find_some in H. destruct H as [Hin Hb].
  split; [exact Hin|]. unfold above in Hb. now apply Z.ltb_lt.
Qed.

(** In the sorted list the first item above [seq] is the item of least
    key above [seq] that the original list holds first. *)
Lemma find_sort_first before x after :
  seq < fst x ->
  (forall y, In y (before ++ x :: after) -> seq < fst y -> fst x <= fst y) ->
  (forall y, In y before -> fst y <> fst x) ->
  find above (sort_by_key (before ++ x :: after)) = Some x.
Proof.
  intros Hx. induction before as [|z before IH]; intros Hmin Hfirst; simpl.
  - rewrite find_insert.
    assert (Hax : above x = true) by (unfold above; now apply Z.ltb_lt).
    rewrite Hax.
    destruct (find above (sort_by_key after)) as [b|] eqn:Hb; [|reflexivity].
    apply find_above_In in Hb. destruct Hb as [Hin Hsb].
    apply (proj1 (In_sort_by_key _ _)) in Hin.
    assert (fst x <= fst b) by (apply Hmin; [now right|exact Hsb]).
    assert (Hlt : (fst b <? fst x) = false) by (apply Z.ltb_ge; lia).
    now rewrite Hlt.
  - rewrite find_insert, IH.
    + destruct (above z) eqn:Hz; [|reflexivity].
      unfold above in Hz. apply Z.ltb_lt in Hz.
      assert (fst x <= fst z) by (apply Hmin; [now left|exact Hz]).
      assert (fst z <> fst x) by (apply Hfirst; now left).
      assert (Hlt : (fst x <? fst z) = true) by (apply Z.ltb_lt; lia).
      now rewrite Hlt.
    + intros y Hy. apply Hmin. now right.
    + intros y Hy. apply Hfirst. now right.
Qed.

Lemma find_sort_none l :
  (forall y, In y l -> fst y <= seq) ->
  find above (sort_by_key l) = None.
Proof.
  intros Hall.
  destruct (find above (sort_by_key l)) as [b|] eqn:Hb; [|reflexivity].
  apply find_above_In in Hb. destruct Hb as [Hin Hsb].
  apply (proj1 (In_sort_by_key _ _)) in Hin. apply Hall in Hin. lia.
Qed.

End SortFacts.

(** ** Results about the loops *)

Lemma for_each_next {A : Type} (xs : list A) (body : A -> result flow) :
  (forall x, In x xs -> body x = Ok Next) -> for_each xs body = Ok None.
Proof.
  induction xs as [|x xs IH]; intros Hnext; simpl; [reflexivity|].
  rewrite (Hnext x (or_introl eq_refl)). simpl.
  apply IH. intros y Hy. apply Hnext. now right.
Qed.

Section NamedEntry.

(** The loop of line 18: the body runs for the entries named [p]. *)
Variables (p : string) (visit : string -> result (option pyval)).

Let body := fun dir : string =>
  if String.eqb dir p then do r <- visit dir ;; after_loop r Next else Ok Next.

Lemma for_each_absent (names : list string) :
  ~ In p names -> for_each names body = Ok None.
Proof.
  intros Hnot. apply for_each_next. intros x Hx. unfold body.
  destruct (String.eqb_spec x p) as [->|Hne]; [contradiction|reflexivity].
Qed.

Lemma for_each_present (names : list string) :
  In p names -> for_each names body = visit p.
Proof.
  induction names as [|x names IH]; intros Hin; [destruct Hin|].
  simpl. unfold body at 1.
  destruct (String.eqb_spec x p) as [->|Hne].
  - destruct (visit p) as [[v|]|e] eqn:Hv; simpl; try reflexivity.
    apply for_each_next. intros y _. unfold body.
    destruct (String.eqb_spec y p) as [->|Hne]; [|reflexivity].
    now rewrite Hv.
  - simpl. apply IH. destruct Hin as [Heq|Hin]; [congruence|exact Hin].
Qed.

End NamedEntry.

Section RangeStage.

(** The loops of lines 21 and 24: the body runs for the first name above
    the sequential number, then the loop is left. *)
Variables (seq : Z) (visit : string -> result (option pyval)).

Let body := fun name : string =>
  do n <- Str.int name ;;
  if seq <? n then do r <- visit name ;; after_loop r Break else Ok Next.

Lemma for_each_keyed (keyed : list (Z * string)) :
  (forall k m, In (k, m) keyed -> Str.int m = Ok k) ->
  for_each (map snd keyed) body
  = match find (fun x => seq <? fst x) keyed with
    | Some x => visit (snd x)
    | None => Ok None
    end.
Proof.
  induction keyed as [|[k m] keyed IH]; intros Hkeys; simpl; [reflexivity|].
  unfold body at 1. rewrite (Hkeys k m (or_introl eq_refl)). simpl.
  destruct (seq <? k); cbn [bind snd].
  - destruct (visit m) as [[v|]|e]; reflexivity.
  - apply IH. intros k' m' Hin. apply Hkeys. now right.
Qed.

Lemma keyed_values (names : list string) (k : Z) (m : string) :
  numeric names ->
  In (k, m) (sort_by_key (map (fun m => (value_of m, m)) names)) ->
  Str.int m = Ok k.
Proof.
  intros Hnum Hin. apply (proj1 (In_sort_by_key _ _)) in Hin.
  apply in_map_iff in Hin. destruct Hin as [m' [Heq Hm']].
  injection Heq as <- <-.
  destruct (Hnum m' Hm') as [j Hj]. unfold value_of. now rewrite Hj.
Qed.

Lemma stage_first_above (names : list string) (n : string) :
  numeric names -> first_above seq names n ->
  (do ordered <- sorted Str.int names ;; for_each ordered body) = visit n.
Proof.
  intros Hnum (k & before & after & Hsplit & Hn & Hk & Hmin & Hfirst).
  unfold sorted. rewrite (numeric_keyed names Hnum). simpl.
  rewrite for_each_keyed by (intros; eapply keyed_values; eauto).
  assert (Hvn : value_of n = k) by (unfold value_of; now rewrite Hn).
  pose proof Hsplit as Hmap.
  apply (f_equal (map (fun m => (value_of m, m)))) in Hmap.
  rewrite map_app in Hmap. simpl in Hmap. rewrite Hvn in Hmap.
  rewrite Hmap, find_sort_first; [reflexivity|exact Hk| |].
  - rewrite <- Hmap. intros [j m] Hin Hj. simpl in *.
    apply in_map_iff in Hin. destruct Hin as [m' [Heq Hm']].
    injection Heq as <- <-.
    destruct (Hnum m' Hm') as [j' Hj'].
    unfold value_of in *. rewrite Hj' in *. eapply Hmin; eauto.
  - intros [j m] Hin. simpl.
    apply in_map_iff in Hin. destruct Hin as [m' [Heq Hm']].
    injection Heq as <- <-.
    assert (Hin' : In m' names) by (rewrite Hsplit; apply in_or_app; now left).
    destruct (Hnum m' Hin') as [j' Hj'].
    unfold value_of. rewrite Hj'. intros ->. now apply (Hfirst m' Hm').
Qed.

Lemma stage_none_above (names : list string) :
  numeric names -> none_above seq names ->
  (do ordered <- sorted Str.int names ;; for_each ordered body) = Ok None.
Proof.
  intros Hnum Hnone.
  unfold sorted. rewrite (numeric_keyed names Hnum). simpl.
  rewrite for_each_keyed by (intros; eapply keyed_values; eauto).
  rewrite find_sort_none; [reflexivity|].
  intros [j m] Hin. simpl.
  apply in_map_iff in Hin. destruct Hin as [m' [Heq Hm']].
  injection Heq as <- <-.
  destruct (Hnum m' Hm') as [j' Hj'].
  unfold value_of. rewrite Hj'. eapply Hnone; eauto.
Qed.

End RangeStage.

(** ** The descent, level by level *)

Section Descent.

Variables (entity_iri : string) (seq : Z).

Lemma visit_dir1_select (level1 : list (string * node)) (n2 : string) :
  numeric (map fst level1) -> first_above seq (map fst level1) n2 ->
  visit_dir1 entity_iri seq (Ok (Dir level1))
  = visit_dir2 entity_iri seq (join (Ok (Dir level1)) n2).
Proof.
  intros Hnum Hsel. unfold visit_dir1. simpl listdir. rewrite bind_ok.
  exact (stage_first_above seq
           (fun subdir => visit_dir2 entity_iri seq (join (Ok (Dir level1)) subdir))
           _ _ Hnum Hsel).
Qed.

Lemma visit_dir1_none (level1 : list (string * node)) :
  numeric (map fst level1) -> none_above seq (map fst level1) ->
  visit_dir1 entity_iri seq (Ok (Dir level1)) = Ok None.
Proof.
  intros Hnum Hnone. unfold visit_dir1. simpl listdir. rewrite bind_ok.
  exact (stage_none_above seq
           (fun subdir => visit_dir2 entity_iri seq (join (Ok (Dir level1)) subdir))
           _ Hnum Hnone).
Qed.

Lemma visit_dir2_select (level2 : list (string * node)) (n3 : string) :
  numeric (filter Str.isdigit (map fst level2)) ->
  first_above seq (filter Str.isdigit (map fst level2)) n3 ->
  visit_dir2 entity_iri seq (Ok (Dir level2))
  = visit_dir3 entity_iri (join (Ok (Dir level2)) n3).
Proof.
  intros Hnum Hsel. unfold visit_dir2. simpl listdir. rewrite bind_ok.
  exact (stage_first_above seq
           (fun subsubdir => visit_dir3 entity_iri (join (Ok (Dir level2)) subsubdir))
           _ _ Hnum Hsel).
Qed.

Lemma visit_dir2_none (level2 : list (string * node)) :
  numeric (filter Str.isdigit (map fst level2)) ->
  none_above seq (filter Str.isdigit (map fst level2)) ->
  visit_dir2 entity_iri seq (Ok (Dir level2)) = Ok None.
Proof.
  intros Hnum Hnone. unfold visit_dir2. simpl listdir. rewrite bind_ok.
  exact (stage_none_above seq
           (fun subsubdir => visit_dir3 entity_iri (join (Ok (Dir level2)) subsubdir))
           _ Hnum Hnone).
Qed.

Hypothesis Hseq : sequential_number_of entity_iri = Ok seq.

Lemma locate_level1 (root : list (string * node)) (dir1 : node) :
  lookup (supplier_prefix_of entity_iri) root = Some dir1 ->
  get_provenance_graph entity_iri (Ok (Dir root))
  = visit_dir1 entity_iri seq (Ok dir1).
Proof.
  intros Hdir. unfold get_provenance_graph. rewrite Hseq. simpl.
  rewrite (for_each_present (supplier_prefix_of entity_iri)
             (fun dir => visit_dir1 entity_iri seq (join (Ok (Dir root)) dir))).
  - simpl. now rewrite Hdir.
  - eapply lookup_In; eauto.
Qed.

Lemma locate_no_level1 (root : list (string * node)) :
  ~ In (supplier_prefix_of entity_iri) (map fst root) ->
  get_provenance_graph entity_iri (Ok (Dir root)) = Ok None.
Proof.
  intros Hnot. unfold get_provenance_graph. rewrite Hseq. simpl.
  exact (for_each_absent (supplier_prefix_of entity_iri)
           (fun dir => visit_dir1 entity_iri seq (join (Ok (Dir root)) dir))
           _ Hnot).
Qed.

End Descent.

Lemma join_child (entries : list (string * node)) (name : string) (child : node) :
  lookup name entries = Some child -> join (Ok (Dir entries)) name = Ok child.
Proof. intros H. simpl. now rewrite H. Qed.

(** With the shard selected by the range rule, the call comes down to the
    scan of that shard's archive. *)
Lemma locate_shard_archive (entity_iri : string) (root : list (string * node))
    (data : pyval) :
  shard_archive entity_iri root data ->
  get_provenance_graph entity_iri (Ok (Dir root))
  = (do objs <- iter data ;; scan_data entity_iri objs).
Proof.
  intros (seq & level1 & n2 & level2 & n3 & shard &
          Hseq & H1 & Hnum1 & Hsel1 & H2 & Hnum2 & Hsel2 & H3 & Hload).
  rewrite (locate_level1 _ _ Hseq _ _ H1).
  rewrite (visit_dir1_select _ _ _ _ Hnum1 Hsel1), (join_child _ _ _ H2).
  rewrite (visit_dir2_select _ _ _ _ Hnum2 Hsel2), (join_child _ _ _ H3).
  unfold visit_dir3. now rewrite Hload.
Qed.

(** ** Results about strings *)

Lemma take_length (s : string) : Str.take (String.length s) s = s.
Proof. induction s as [|c s IH]; simpl; [reflexivity|now rewrite IH]. Qed.

Lemma drop_length (s : string) : Str.drop (String.length s) s = "".
Proof. induction s as [|c s IH]; simpl; [reflexivity|exact IH]. Qed.

Lemma startswith_refl (s : string) : Str.startswith s s = true.
Proof.
  induction s as [|c s IH]; simpl; [reflexivity|].
  now rewrite Ascii.eqb_refl, IH.
Qed.

Lemma slice_to_length (s : string) :
  Str.slice_to s (Z.of_nat (String.length s)) = s.
Proof.
  unfold Str.slice_to.
  destruct (Z.ltb_spec (Z.of_nat (String.length s)) 0) as [Hneg|_]; [lia|].
  rewrite Z.min_id, Nat2Z.id. apply take_length.
Qed.

Lemma slice_to_zero (s : string) : Str.slice_to s 0 = "".
Proof.
  unfold Str.slice_to. simpl.
  rewrite Z.min_l by lia. reflexivity.
Qed.

Lemma removeprefix_self (s : string) : Str.removeprefix s s = "".
Proof. unfold Str.removeprefix. rewrite startswith_refl. apply drop_length. Qed.

Lemma removeprefix_empty (s : string) : Str.removeprefix s "" = s.
Proof. unfold Str.removeprefix. destruct s; reflexivity. Qed.

(** A decimal digit is below 127 and is neither whitespace, a sign nor an
    underscore. *)
Lemma is_decimal_plain (c : ascii) :
  Str.is_decimal c = true ->
  (Str.code c <? 127)%N = true /\ Str.Py_ISSPACE c = false /\
  Ascii.eqb c "+" = false /\ Ascii.eqb c "-" = false /\ Ascii.eqb c "_" = false.
Proof.
  destruct c as [[] [] [] [] [] [] [] []]; vm_compute; intros H;
    try discriminate H; repeat split.
Qed.

Lemma to_ascii_decimal (s : string) :
  Str.all_chars Str.is_decimal s = true -> Str.to_ascii s = s.
Proof.
  induction s as [|c s IH]; simpl; [reflexivity|].
  intros H. apply andb_prop in H. destruct H as [Hc Hs].
  destruct (is_decimal_plain c Hc) as [Hlow _].
  now rewrite Hlow, IH.
Qed.

Lemma scan_digits_decimal (s : string) :
  Str.all_chars Str.is_decimal s = true ->
  forall n acc, exists v,
    Str.scan_digits false n acc s = Some (v, (n + String.length s)%nat, "").
Proof.
  induction s as [|c s IH]; cbn [Str.scan_digits Str.all_chars String.length];
    intros H n acc.
  - exists acc. now rewrite Nat.add_0_r.
  - apply andb_prop in H. destruct H as [Hc Hs]. rewrite Hc.
    destruct (IH Hs (S n) (10 * acc + Str.digit_value c)) as [v Hv].
    exists v. rewrite Hv. now rewrite Nat.add_succ_r.
Qed.

(** [int] accepts every decimal string within the digit limit. *)
Lemma int_isdecimal (s : string) :
  Str.isdecimal s = true ->
  Z.of_nat (String.length s) <= Str.int_max_str_digits ->
  exists k, Str.int s = Ok k.
Proof.
  destruct s as [|c r]; [discriminate|].
  unfold Str.isdecimal. intros H Hlen.
  unfold Str.int. rewrite (to_ascii_decimal _ H).
  destruct (scan_digits_decimal _ H O 0) as [v Hv].
  simpl in H. apply andb_prop in H. destruct H as [Hc _].
  destruct (is_decimal_plain c Hc) as (_ & Hsp & Hplus & Hminus & Hus).
  unfold Str.PyLong_FromString. simpl Str.skip_spaces.
  rewrite Hsp, Hplus, Hminus, Hus, Hv.
  rewrite Nat.add_0_l.
  destruct (Z.ltb_spec Str.int_max_str_digits (Z.of_nat (String.length (String c r))))
    as [Hover|_]; [lia|].
  simpl. now exists v.
Qed.

(** A string of more digits than the limit is refused. *)
Lemma int_too_long (s : string) :
  Str.isdecimal s = true ->
  Str.int_max_str_digits < Z.of_nat (String.length s) ->
  Str.int s = Raise ValueError.
Proof.
  destruct s as [|c r]; [discriminate|].
  unfold Str.isdecimal. intros H Hlen.
  unfold Str.int. rewrite (to_ascii_decimal _ H).
  destruct (scan_digits_decimal _ H O 0) as [v Hv].
  simpl in H. apply andb_prop in H. destruct H as [Hc _].
  destruct (is_decimal_plain c Hc) as (_ & Hsp & Hplus & Hminus & Hus).
  unfold Str.PyLong_FromString. simpl Str.skip_spaces.
  rewrite Hsp, Hplus, Hminus, Hus, Hv.
  rewrite Nat.add_0_l.
  destruct (Z.ltb_spec Str.int_max_str_digits (Z.of_nat (String.length (String c r))))
    as [_|Hunder]; [reflexivity|lia].
Qed.

(** The conversions the interpreter performs on sample strings. *)
Example int_samples :
  map Str.int ["007"; " 12 "; "+5"; "-5"; "1_000"; ""; "_1"; "1_"; "1__0"; "+ 5"; "5 6"; "prov"]
  = [Ok 7; Ok 12; Ok 5; Ok (-5); Ok 1000; Raise ValueError; Raise ValueError;
     Raise ValueError; Raise ValueError; Raise ValueError; Raise ValueError;
     Raise ValueError].
Proof. vm_compute. reflexivity. Qed.

Example sorted_samples :
  sorted Str.int ["10"; "5"; "05"; "1"; "+5"] = Ok ["1"; "5"; "05"; "+5"; "10"] /\
  sorted Str.int ["10"; "prov"; "x"] = Raise ValueError.
Proof. split; vm_compute; reflexivity. Qed.

Example string_samples :
  Str.split "/" "a/b/" = ["a"; "b"; ""] /\ Str.split "/" "" = [""] /\
  Str.find "0" 1 "00" = 1 /\ Str.find "0" 1 "0" = -1 /\ Str.find "0" 1 "" = -1 /\
  Str.slice_to "abc" (-1) = "ab" /\ Str.slice_to "abc" 10 = "abc" /\
  Str.removeprefix "0605200" "060" = "5200" /\ Str.removeprefix "abc" "b" = "abc".
Proof. repeat split. Qed.

(** *** Strings that [int] rejects *)

Lemma parser_char_literal (c : ascii) :
  (Str.code c <? 127)%N = true -> literal_char c = parser_char c.
Proof. destruct c as [[] [] [] [] [] [] [] []]; vm_compute; congruence. Qed.

Lemma high_space_literal (c : ascii) :
  (Str.code c <? 127)%N = false -> Str.Py_UNICODE_ISSPACE c = literal_char c.
Proof. destruct c as [[] [] [] [] [] [] [] []]; vm_compute; congruence. Qed.

Lemma to_ascii_junk (s : string) :
  Str.all_chars literal_char s = false ->
  Str.all_chars parser_char (Str.to_ascii s) = false.
Proof.
  induction s as [|c s IH]; simpl; [discriminate|].
  intros H. destruct (Str.code c <? 127)%N eqn:Hlow.
  - rewrite (parser_char_literal c Hlow) in H. simpl.
    destruct (parser_char c); [exact (IH H)|reflexivity].
  - rewrite (high_space_literal c Hlow).
    destruct (literal_char c); [exact (IH H)|reflexivity].
Qed.

Lemma skip_spaces_junk (s : string) :
  Str.all_chars parser_char s = false ->
  Str.all_chars parser_char (Str.skip_spaces s) = false.
Proof.
  induction s as [|c s IH]; simpl; [discriminate|].
  intros H. destruct (Str.Py_ISSPACE c) eqn:Hsp; [|exact H].
  apply IH. unfold parser_char in H. rewrite Hsp in H.
  now rewrite orb_true_r in H.
Qed.

Lemma scan_digits_junk (s : string) :
  Str.all_chars parser_char s = false ->
  forall prev_us n acc v n' rest,
    Str.scan_digits prev_us n acc s = Some (v, n', rest) ->
    Str.all_chars parser_char rest = false.
Proof.
  induction s as [|c s IH]; cbn [Str.scan_digits Str.all_chars]; [discriminate|].
  intros H prev_us n acc v n' rest Hscan.
  destruct (Str.is_decimal c) eqn:Hd.
  - unfold parser_char in H. rewrite Hd in H. eapply IH; eauto.
  - destruct (Ascii.eqb c "_") eqn:Hus.
    + destruct prev_us; [discriminate|].
      unfold parser_char in H. rewrite Hus, orb_true_r in H. eapply IH; eauto.
    + destruct prev_us; [discriminate|].
      injection Hscan as <- <- <-. exact H.
Qed.

Lemma PyLong_FromString_junk (s : string) :
  Str.all_chars parser_char s = false -> Str.PyLong_FromString s = None.
Proof.
  intros H. apply skip_spaces_junk in H. unfold Str.PyLong_FromString.
  set (s1 := Str.skip_spaces s) in *.
  assert (Hsign : forall (negative : bool) (s2 : string),
             Str.all_chars parser_char s2 = false ->
             match s2 with
             | String c _ =>
                 if Ascii.eqb c "_" then None
                 else match Str.scan_digits false O 0 s2 with
                      | Some (v, ndigits, rest) =>
                          if Str.int_max_str_digits <? Z.of_nat ndigits then None
                          else
                            match ndigits with
                            | O => None
                            | S _ =>
                                match Str.skip_spaces rest with
                                | EmptyString => Some (if negative then - v else v)
                                | String _ _ => None
                                end
                            end
                      | None => None
                      end
             | EmptyString => None
             end = None).
  { intros negative s2 H2. destruct s2 as [|c r]; [reflexivity|].
    destruct (Ascii.eqb c "_"); [reflexivity|].
    destruct (Str.scan_digits false O 0 (String c r)) as [[[v n] rest]|] eqn:Hscan;
      [|reflexivity].
    destruct (Str.int_max_str_digits <? Z.of_nat n); [reflexivity|].
    destruct n; [reflexivity|].
    apply (scan_digits_junk _ H2) in Hscan. apply skip_spaces_junk in Hscan.
    destruct (Str.skip_spaces rest); [discriminate|reflexivity]. }
  destruct s1 as [|c r]; [discriminate|].
  cbn [Str.all_chars] in H.
  destruct (Ascii.eqb c "+") eqn:Hplus.
  - unfold parser_char in H. rewrite Hplus in H.
    rewrite !orb_true_r in H. exact (Hsign false r H).
  - destruct (Ascii.eqb c "-") eqn:Hminus.
    + unfold parser_char in H. rewrite Hminus in H.
      rewrite !orb_true_r in H. exact (Hsign true r H).
    + exact (Hsign false (String c r) H).
Qed.

(** A string holding a character that no integer literal can hold, such
    as a letter, is rejected by [int]. *)
Lemma int_rejects (s : string) :
  Str.all_chars literal_char s = false -> Str.int s = Raise ValueError.
Proof.
  intros H. unfold Str.int.
  now rewrite (PyLong_FromString_junk _ (to_ascii_junk _ H)).
Qed.

(** *** The range rule selects one name or none *)

Lemma first_above_total (seq : Z) (names : list string) :
  numeric names ->
  (exists n, first_above seq names n) \/ none_above seq names.
Proof.
  induction names as [|m names IH]; intros Hnum.
  - right. intros m j [].
  - destruct (Hnum m (or_introl eq_refl)) as [j Hj].
    assert (Hrest : numeric names) by (intros x Hx; apply Hnum; now right).
    destruct (IH Hrest) as [[n (k & before & after & Hsplit & Hn & Hk & Hmin & Hfirst)]|Hnone].
    + destruct (Z_lt_le_dec seq j) as [Hsj|Hsj];
        [destruct (Z_le_gt_dec j k) as [Hjk|Hjk]|].
      * left. exists m, j, [], names. repeat split; try assumption.
        -- intros x i [<-|Hx] Hi Hlt; [assert (i = j) by congruence; lia|].
           specialize (Hmin x i Hx Hi Hlt). lia.
        -- intros x [].
      * left. exists n, k, (m :: before), after. rewrite Hsplit.
        repeat split; try assumption.
        -- intros x i [<-|Hx] Hi Hlt; [assert (i = j) by congruence; lia|].
           apply (Hmin x i); try assumption. now rewrite Hsplit.
        -- intros x [<-|Hx]; [intros Heq; assert (j = k) by congruence; lia|].
           now apply Hfirst.
      * left. exists n, k, (m :: before), after. rewrite Hsplit.
        repeat split; try assumption.
        -- intros x i [<-|Hx] Hi Hlt; [assert (i = j) by congruence; lia|].
           apply (Hmin x i); try assumption. now rewrite Hsplit.
        -- intros x [<-|Hx]; [intros Heq; assert (j = k) by congruence; lia|].
           now apply Hfirst.
    + destruct (Z_lt_le_dec seq j) as [Hsj|Hsj].
      * left. exists m, j, [], names. repeat split; try assumption.
        -- intros x i [<-|Hx] Hi Hlt; [assert (i = j) by congruence; lia|].
           specialize (Hnone x i Hx Hi). lia.
        -- intros x [].
      * right. intros x i [<-|Hx] Hi; [assert (i = j) by congruence; lia|].
        now apply (Hnone x i).
Qed.

(** ** Results about the scan of the archive *)

Section Scan.

Variable entity_iri : string.

Let body := fun obj : pyval =>
  do id <- getitem obj "@id" ;;
  if eq_str id (entity_iri ++ "/prov/") then Ok (Return obj) else Ok Next.

Lemma belongs_returns (obj : pyval) :
  belongs_to entity_iri obj -> body obj = Ok (Return obj).
Proof.
  intros (items & -> & Hid). unfold body. simpl. rewrite Hid. simpl.
  now rewrite String.eqb_refl.
Qed.

Lemma other_object_next (obj : pyval) :
  prov_object obj -> ~ belongs_to entity_iri obj -> body obj = Ok Next.
Proof.
  intros (items & v & -> & Hid) Hnot. unfold body. simpl. rewrite Hid. simpl.
  destruct v as [| | | |t| |]; simpl; try reflexivity.
  destruct (String.eqb_spec t (entity_iri ++ "/prov/")) as [->|Hne]; [|reflexivity].
  exfalso. apply Hnot. now exists items.
Qed.

Lemma belongs_dec (obj : pyval) :
  prov_object obj -> belongs_to entity_iri obj \/ ~ belongs_to entity_iri obj.
Proof.
  intros (items & v & -> & Hid).
  destruct v as [| | | |t| |];
    try (right; intros (items' & Heq & Hid'); injection Heq as <-; congruence).
  destruct (String.eqb_spec t (entity_iri ++ "/prov/")) as [->|Hne].
  - left. now exists items.
  - right. intros (items' & Heq & Hid'). injection Heq as <-. congruence.
Qed.

Lemma scan_data_first (pre post : list pyval) (obj : pyval) :
  Forall prov_object pre ->
  (forall x, In x pre -> ~ belongs_to entity_iri x) ->
  belongs_to entity_iri obj ->
  scan_data entity_iri (pre ++ obj :: post) = Ok (Some obj).
Proof.
  intros Hpre Hnone Hobj. unfold scan_data. fold body.
  induction Hpre as [|x pre Hx Hpre IH]; simpl.
  - now rewrite (belongs_returns _ Hobj).
  - rewrite (other_object_next x Hx (Hnone x (or_introl eq_refl))). simpl.
    apply IH. intros y Hy. apply Hnone. now right.
Qed.

Lemma scan_data_none (data : list pyval) :
  Forall prov_object data ->
  (forall x, In x data -> ~ belongs_to entity_iri x) ->
  scan_data entity_iri data = Ok None.
Proof.
  intros Hdata Hnone. unfold scan_data. fold body.
  apply for_each_next. intros x Hx.
  apply other_object_next; [|now apply Hnone].
  rewrite Forall_forall in Hdata. now apply Hdata.
Qed.

(** The first object of a sequence that belongs to the entity. *)
Lemma first_belonging (data : list pyval) (obj : pyval) :
  Forall prov_object data -> In obj data -> belongs_to entity_iri obj ->
  exists pre found post,
    data = pre ++ found :: post /\ belongs_to entity_iri found /\
    (forall x, In x pre -> ~ belongs_to entity_iri x).
Proof.
  intros Hdata. induction Hdata as [|x data Hx Hdata IH]; intros Hin Hobj.
  - destruct Hin.
  - destruct (belongs_dec x Hx) as [Hyes|Hno].
    + exists [], x, data. repeat split; [exact Hyes|intros y []].
    + destruct Hin as [->|Hin]; [contradiction|].
      destruct (IH Hin Hobj) as (pre & found & post & -> & Hfound & Hpre).
      exists (x :: pre), found, post. repeat split; [exact Hfound|].
      intros y [<-|Hy]; [exact Hno|now apply Hpre].
Qed.

End Scan.

(** ** Results about the digit-name filter *)

Lemma for_each_ext {A : Type} (xs : list A) (f g : A -> result flow) :
  (forall x, In x xs -> f x = g x) -> for_each xs f = for_each xs g.
Proof.
  induction xs as [|x xs IH]; intros Hext; simpl; [reflexivity|].
  rewrite (Hext x (or_introl eq_refl)), IH; [reflexivity|].
  intros y Hy. apply Hext. now right.
Qed.

Lemma keyed_items {A : Type} (key : A -> result Z) (l : list A) (keyed : list (Z * A)) :
  mapM (fun x => do k <- key x ;; Ok (k, x)) l = Ok keyed -> map snd keyed = l.
Proof.
  revert keyed. induction l as [|x l IH]; simpl; intros keyed H.
  - now injection H as <-.
  - destruct (key x) as [k|e]; simpl in H; [|discriminate].
    destruct (mapM _ l) as [rest|e]; simpl in H; [|discriminate].
    injection H as <-. simpl. now rewrite (IH rest eq_refl).
Qed.

Lemma sorted_In {A : Type} (key : A -> result Z) (l ordered : list A) (x : A) :
  sorted key l = Ok ordered -> In x ordered -> In x l.
Proof.
  unfold sorted. intros H Hx.
  destruct (mapM _ l) as [keyed|e] eqn:Hk; simpl in H; [|discriminate].
  injection H as <-.
  apply in_map_iff in Hx. destruct Hx as [kx [<- Hin]].
  apply (proj1 (In_sort_by_key _ _)) in Hin.
  rewrite <- (keyed_items _ _ _ Hk). now apply in_map.
Qed.

Lemma digit_named_names (entries : list (string * node)) :
  filter Str.isdigit (map fst (digit_named entries))
  = filter Str.isdigit (map fst entries).
Proof.
  induction entries as [|[k v] entries IH]; simpl; [reflexivity|].
  destruct (Str.isdigit k) eqn:Hk; simpl; rewrite ?Hk, IH; reflexivity.
Qed.

Lemma lookup_digit_named (entries : list (string * node)) (name : string) :
  Str.isdigit name = true -> lookup name (digit_named entries) = lookup name entries.
Proof.
  intros Hname. induction entries as [|[k v] entries IH]; simpl; [reflexivity|].
  destruct (Str.isdigit k) eqn:Hk; simpl.
  - now rewrite IH.
  - destruct (String.eqb_spec k name) as [->|Hne]; [congruence|exact IH].
Qed.

(** Entries whose names are not digit-only have no part in the level-3
    stage. *)
Lemma visit_dir2_digit_named (entity_iri : string) (seq : Z)
    (level2 : list (string * node)) :
  visit_dir2 entity_iri seq (Ok (Dir level2))
  = visit_dir2 entity_iri seq (Ok (Dir (digit_named level2))).
Proof.
  unfold visit_dir2. simpl listdir. rewrite !bind_ok, digit_named_names.
  destruct (sorted Str.int (filter Str.isdigit (map fst level2))) as [ordered|e] eqn:Hs;
    [|reflexivity].
  simpl. apply for_each_ext. intros x Hx.
  apply (sorted_In _ _ _ _ Hs) in Hx. apply filter_In in Hx. destruct Hx as [_ Hd].
  simpl. now rewrite (lookup_digit_named _ _ Hd).
Qed.

(** ** The properties of the specification *)

(** C4. For the identifier whose last segment is 0605200 the first zero
    after position 0 is at index 2, the supplier prefix is 060 and the
    sequential number is 5200; under the level-1 directory 060 with level-2
    entries 1000 and 6000 the call goes into 6000, whatever the entries
    hold, and among the level-3 entries 5100 and 5300 it goes into 5300. *)
Theorem scenario_0605200 :
  digits_of Sample.br_0605200 = "0605200" /\
  Str.find "0" 1 "0605200" = 2 /\
  supplier_prefix_of Sample.br_0605200 = "060" /\
  sequential_number_of Sample.br_0605200 = Ok 5200 /\
  (forall d1000 d6000 : node,
      get_provenance_graph Sample.br_0605200
        (Ok (Dir [("060", Dir [("1000", d1000); ("6000", d6000)])]))
      = visit_dir2 Sample.br_0605200 5200 (Ok d6000)) /\
  (forall d5100 d5300 : node,
      visit_dir2 Sample.br_0605200 5200 (Ok (Dir [("5100", d5100); ("5300", d5300)]))
      = visit_dir3 Sample.br_0605200 (Ok d5300)) /\
  get_provenance_graph Sample.br_0605200 (Ok (Dir Sample.scenario))
  = Ok (Some (Sample.snapshot Sample.br_0605200 "6000/5300")).
Proof.
  assert (Hseq : sequential_number_of Sample.br_0605200 = Ok 5200)
    by (vm_compute; reflexivity).
  repeat split; try (vm_compute; reflexivity).
  - intros d1000 d6000.
    rewrite (locate_level1 _ _ Hseq _ (Dir [("1000", d1000); ("6000", d6000)]))
      by reflexivity.
    rewrite (visit_dir1_select _ _ _ "6000"); [reflexivity|concrete_numeric|].
    concrete_first_above 6000 ["1000"] (@nil string).
  - intros d5100 d5300.
    rewrite (visit_dir2_select _ _ _ "5300"); [reflexivity|concrete_numeric|].
    concrete_first_above 5300 ["5100"] (@nil string).
Qed.

(** C2. Level-2 selection: when the level-1 directory named by the
    supplier prefix holds entries with integer names, the call goes into
    the entry that comes first, in ascending order of value, among those
    whose value is strictly greater than the sequential number; when no
    value is strictly greater, the call returns None. *)
Theorem level2_selection (entity_iri : string) (seq : Z)
    (root level1 : list (string * node)) :
  sequential_number_of entity_iri = Ok seq ->
  lookup (supplier_prefix_of entity_iri) root = Some (Dir level1) ->
  numeric (map fst level1) ->
  (forall n2, first_above seq (map fst level1) n2 ->
     get_provenance_graph entity_iri (Ok (Dir root))
     = visit_dir2 entity_iri seq (join (Ok (Dir level1)) n2)) /\
  (none_above seq (map fst level1) ->
     get_provenance_graph entity_iri (Ok (Dir root)) = Ok None).
Proof.
  intros Hseq Hdir Hnum.
  rewrite (locate_level1 _ _ Hseq _ _ Hdir). split.
  - intros n2 Hsel. now apply visit_dir1_select.
  - intros Hnone. now apply visit_dir1_none.
Qed.

(** With level-2 names 100, 500 and 1000: sequential number 250 selects
    500, sequential number 1000 finds nothing. *)
Lemma level2_selection_ranges :
  get_provenance_graph Sample.br_060250 (Ok (Dir Sample.ranges_tree))
  = visit_dir2 Sample.br_060250 250 (Ok Sample.dir_500) /\
  get_provenance_graph Sample.br_060250 (Ok (Dir Sample.ranges_tree))
  = Ok (Some (Sample.snapshot Sample.br_060250 "500/300")) /\
  get_provenance_graph Sample.br_0601000 (Ok (Dir Sample.ranges_tree)) = Ok None.
Proof.
  split; [|split].
  - assert (Hnum : numeric (map fst Sample.three_ranges)) by concrete_numeric.
    destruct (level2_selection Sample.br_060250 250 Sample.ranges_tree
                Sample.three_ranges eq_refl eq_refl Hnum) as [Hsel _].
    apply (Hsel "500").
    concrete_first_above 500 ["1000"; "100"] (@nil string).
  - vm_compute. reflexivity.
  - assert (Hnum : numeric (map fst Sample.three_ranges)) by concrete_numeric.
    destruct (level2_selection Sample.br_0601000 1000 Sample.ranges_tree
                Sample.three_ranges eq_refl eq_refl Hnum) as [_ Hnone].
    apply Hnone. concrete_none_above.
Defined.

Lemma int_raises_ValueError (s : string) (e : exn) :
  Str.int s = Raise e -> e = ValueError.
Proof.
  unfold Str.int. destruct (Str.PyLong_FromString _); [discriminate|].
  now intros [= <-].
Qed.

(** [sorted] raises when the key of an item does. *)
Lemma sorted_int_raises (names : list string) (bad : string) :
  In bad names -> Str.int bad = Raise ValueError ->
  sorted Str.int names = Raise ValueError.
Proof.
  intros Hin Hbad. unfold sorted.
  assert (Hkeys : mapM (fun x => do k <- Str.int x ;; Ok (k, x)) names = Raise ValueError).
  { induction names as [|m names IH]; [destruct Hin|]. simpl.
    destruct (Str.int m) as [k|e] eqn:Hm; simpl.
    - destruct Hin as [->|Hin]; [congruence|]. now rewrite (IH Hin).
    - now rewrite (int_raises_ValueError _ _ Hm). }
  now rewrite Hkeys.
Qed.

(** An error of [sorted] is the error of the key of one of the items. *)
Lemma sorted_raises_item {A : Type} (key : A -> result Z) (l : list A) (e : exn) :
  sorted key l = Raise e -> exists bad, In bad l /\ key bad = Raise e.
Proof.
  unfold sorted. intros H.
  destruct (mapM (fun x => do k <- key x ;; Ok (k, x)) l) as [keyed|e'] eqn:Hk;
    [discriminate|].
  injection H as ->. clear -Hk.
  induction l as [|x l IH]; simpl in Hk; [discriminate|].
  destruct (key x) as [k|e'] eqn:Hx; simpl in Hk.
  - destruct (mapM (fun x => do k <- key x ;; Ok (k, x)) l) as [rest|e'];
      simpl in Hk; [discriminate|].
    destruct (IH Hk) as (bad & Hin & Hbad). exists bad. split; [now right|exact Hbad].
  - injection Hk as ->. exists x. split; [now left|exact Hx].
Qed.

(** C5. Level-3 filtering: only the entries of the level-2 directory
    whose names are digit-only take part in the sort and in the
    strictly-greater comparison.  The other entries, whatever their names,
    are left out: the stage behaves as if they were absent, and an error
    of the sort at this level is the conversion error of a digit-only
    name, never of another name.  When the digit-only names convert, the
    stage goes into the one selected by the range rule, or returns None
    when there is none; when one of them does not convert, it raises
    ValueError. *)
Theorem level3_digit_names_only (entity_iri : string) (seq : Z)
    (level2 : list (string * node)) :
  visit_dir2 entity_iri seq (Ok (Dir level2))
  = visit_dir2 entity_iri seq (Ok (Dir (digit_named level2))) /\
  (forall e, sorted Str.int (filter Str.isdigit (map fst level2)) = Raise e ->
     exists bad, In bad (map fst level2) /\ Str.isdigit bad = true /\
                 Str.int bad = Raise e) /\
  (forall ordered n,
     sorted Str.int (filter Str.isdigit (map fst level2)) = Ok ordered ->
     In n ordered -> In n (map fst level2) /\ Str.isdigit n = true) /\
  (forall n3, numeric (filter Str.isdigit (map fst level2)) ->
     first_above seq (filter Str.isdigit (map fst level2)) n3 ->
     Str.isdigit n3 = true /\
     visit_dir2 entity_iri seq (Ok (Dir level2))
     = visit_dir3 entity_iri (join (Ok (Dir level2)) n3)) /\
  (numeric (filter Str.isdigit (map fst level2)) ->
   none_above seq (filter Str.isdigit (map fst level2)) ->
   visit_dir2 entity_iri seq (Ok (Dir level2)) = Ok None) /\
  (forall bad, In bad (map fst level2) -> Str.isdigit bad = true ->
     Str.int bad = Raise ValueError ->
     visit_dir2 entity_iri seq (Ok (Dir level2)) = Raise ValueError).
Proof.
  split; [apply visit_dir2_digit_named|].
  split; [|split; [|split; [|split]]].
  - intros e He. destruct (sorted_raises_item _ _ _ He) as (bad & Hin & Hbad).
    apply filter_In in Hin. destruct Hin as [Hin Hd]. now exists bad.
  - intros ordered n Hs Hn. apply (sorted_In _ _ _ _ Hs) in Hn.
    now apply filter_In in Hn.
  - intros n3 Hnum Hsel. split.
    + destruct Hsel as (k & before & after & Hsplit & _).
      assert (Hin : In n3 (filter Str.isdigit (map fst level2)))
        by (rewrite Hsplit; apply in_or_app; right; now left).
      apply filter_In in Hin. tauto.
    + now apply visit_dir2_select.
  - intros Hnum Hnone. now apply visit_dir2_none.
  - intros bad Hin Hd Hbad. unfold visit_dir2. simpl listdir. rewrite bind_ok.
    rewrite (sorted_int_raises _ bad); [reflexivity| |exact Hbad].
    apply filter_In. now split.
Qed.

(** Beside [prov] and [readme], of the names 20 and 10 the sequential
    number 5 selects 10. *)
Lemma level3_digit_names_only_mixed :
  visit_dir2 Sample.br_0605200 5 (Ok (Dir Sample.mixed_level2))
  = Ok (Some (Sample.snapshot Sample.br_0605200 "10")).
Proof.
  destruct (level3_digit_names_only Sample.br_0605200 5 Sample.mixed_level2)
    as (_ & _ & _ & Hsel & _).
  destruct (Hsel "10") as [_ ->]; [| |vm_compute; reflexivity].
  - concrete_numeric.
  - concrete_first_above 10 ["20"] (@nil string).
Defined.

(** C1. Round trip: when the archive of the level-3 shard selected for
    the identifier holds provenance objects, one of which has the [@id] of
    the identifier followed by [/prov/], the call returns an object of that
    archive with that [@id], the first in the archive's order; it is the
    given object when no other object of the archive has that [@id]. *)
Theorem round_trip (entity_iri : string) (root : list (string * node))
    (data : list pyval) (obj : pyval) :
  shard_archive entity_iri root (PList data) ->
  Forall prov_object data ->
  In obj data ->
  belongs_to entity_iri obj ->
  exists pre found post,
    data = pre ++ found :: post /\
    belongs_to entity_iri found /\
    (forall x, In x pre -> ~ belongs_to entity_iri x) /\
    get_provenance_graph entity_iri (Ok (Dir root)) = Ok (Some found) /\
    ((forall x, In x data -> belongs_to entity_iri x -> x = obj) -> found = obj).
Proof.
  intros Harchive Hdata Hin Hobj.
  destruct (first_belonging entity_iri data obj Hdata Hin Hobj)
    as (pre & found & post & Hsplit & Hfound & Hpre).
  exists pre, found, post. repeat split; try assumption.
  - rewrite (locate_shard_archive _ _ _ Harchive). simpl. rewrite Hsplit.
    apply scan_data_first; try assumption.
    rewrite Hsplit in Hdata. apply Forall_app in Hdata. tauto.
  - intros Hunique. apply Hunique; [|exact Hfound].
    rewrite Hsplit. apply in_or_app. right. now left.
Qed.

Lemma scenario_shard_archive :
  shard_archive Sample.br_0605200 Sample.scenario
    (PList [Sample.snapshot Sample.br_0605200 "6000/5300"]).
Proof.
  exists 5200, Sample.dir_060, "6000", Sample.dir_6000, "5300",
    (Sample.shard [Sample.snapshot Sample.br_0605200 "6000/5300"]).
  repeat split; try reflexivity; try concrete_numeric.
  - concrete_first_above 6000 ["1000"] (@nil string).
  - concrete_first_above 5300 ["5100"] (@nil string).
Defined.

Lemma snapshot_prov_object (entity_iri tag : string) :
  prov_object (Sample.snapshot entity_iri tag).
Proof.
  unfold Sample.snapshot. eexists _, _. split; reflexivity.
Defined.

Lemma snapshot_belongs (entity_iri tag : string) :
  belongs_to entity_iri (Sample.snapshot entity_iri tag).
Proof.
  unfold Sample.snapshot. eexists. split; reflexivity.
Defined.

Lemma other_not_belongs : ~ belongs_to Sample.br_0605200 Sample.other.
Proof.
  intros (items & Heq & Hid). injection Heq as <-. vm_compute in Hid. discriminate Hid.
Defined.

(** In the scenario the call returns the object stored in 6000/5300. *)
Lemma round_trip_scenario :
  exists pre found post,
    [Sample.snapshot Sample.br_0605200 "6000/5300"] = pre ++ found :: post /\
    belongs_to Sample.br_0605200 found /\
    (forall x, In x pre -> ~ belongs_to Sample.br_0605200 x) /\
    get_provenance_graph Sample.br_0605200 (Ok (Dir Sample.scenario)) = Ok (Some found) /\
    ((forall x, In x [Sample.snapshot Sample.br_0605200 "6000/5300"] ->
                belongs_to Sample.br_0605200 x ->
                x = Sample.snapshot Sample.br_0605200 "6000/5300") ->
     found = Sample.snapshot Sample.br_0605200 "6000/5300").
Proof.
  apply (round_trip Sample.br_0605200 Sample.scenario
           [Sample.snapshot Sample.br_0605200 "6000/5300"]
           (Sample.snapshot Sample.br_0605200 "6000/5300")).
  - exact scenario_shard_archive.
  - repeat constructor. apply snapshot_prov_object.
  - now left.
  - apply snapshot_belongs.
Defined.

(** C9. One object at most is returned, and it is the first of the
    archive's sequence, in stored order, whose [@id] is the identifier
    followed by [/prov/]: later objects with the same [@id] are not
    looked at. *)
Theorem first_match_wins (entity_iri : string) (root : list (string * node))
    (pre post : list pyval) (obj : pyval) :
  shard_archive entity_iri root (PList (pre ++ obj :: post)) ->
  Forall prov_object pre ->
  (forall x, In x pre -> ~ belongs_to entity_iri x) ->
  belongs_to entity_iri obj ->
  get_provenance_graph entity_iri (Ok (Dir root)) = Ok (Some obj).
Proof.
  intros Harchive Hpre Hnone Hobj.
  rewrite (locate_shard_archive _ _ _ Harchive). simpl.
  now apply scan_data_first.
Qed.

Lemma duplicates_shard_archive :
  shard_archive Sample.br_0605200 Sample.duplicates
    (PList ([Sample.other] ++ Sample.first_copy :: [Sample.second_copy])).
Proof.
  exists 5200, [("6000", Dir [("5300", Sample.shard [Sample.other; Sample.first_copy;
                                                     Sample.second_copy])])],
    "6000", [("5300", Sample.shard [Sample.other; Sample.first_copy; Sample.second_copy])],
    "5300", (Sample.shard [Sample.other; Sample.first_copy; Sample.second_copy]).
  repeat split; try reflexivity; try concrete_numeric.
  - concrete_first_above 6000 (@nil string) (@nil string).
  - concrete_first_above 5300 (@nil string) (@nil string).
Defined.

(** Of two objects with the entity's [@id] the first is returned. *)
Lemma first_match_wins_duplicates :
  belongs_to Sample.br_0605200 Sample.second_copy /\
  get_provenance_graph Sample.br_0605200 (Ok (Dir Sample.duplicates))
  = Ok (Some Sample.first_copy).
Proof.
  split; [apply snapshot_belongs|].
  apply (first_match_wins Sample.br_0605200 Sample.duplicates
           [Sample.other] [Sample.second_copy] Sample.first_copy).
  - exact duplicates_shard_archive.
  - repeat constructor. apply snapshot_prov_object.
  - intros x Hx. each_name Hx. exact other_not_belongs.
  - apply snapshot_belongs.
Defined.

(** C6. When the descent reaches the archive of the selected level-3
    shard and none of its provenance objects has the [@id] of the
    identifier followed by [/prov/], the call returns None and raises
    nothing. *)
Theorem archive_without_match (entity_iri : string) (root : list (string * node))
    (data : list pyval) :
  shard_archive entity_iri root (PList data) ->
  Forall prov_object data ->
  (forall x, In x data -> ~ belongs_to entity_iri x) ->
  get_provenance_graph entity_iri (Ok (Dir root)) = Ok None.
Proof.
  intros Harchive Hdata Hnone.
  rewrite (locate_shard_archive _ _ _ Harchive). simpl.
  now apply scan_data_none.
Qed.

Lemma elsewhere_shard_archive :
  shard_archive Sample.br_0605200 Sample.elsewhere (PList [Sample.other]).
Proof.
  exists 5200, [("6000", Dir [("5300", Sample.shard [Sample.other])])],
    "6000", [("5300", Sample.shard [Sample.other])],
    "5300", (Sample.shard [Sample.other]).
  repeat split; try reflexivity; try concrete_numeric.
  - concrete_first_above 6000 (@nil string) (@nil string).
  - concrete_first_above 5300 (@nil string) (@nil string).
Defined.

Lemma archive_without_match_elsewhere :
  get_provenance_graph Sample.br_0605200 (Ok (Dir Sample.elsewhere)) = Ok None.
Proof.
  apply (archive_without_match Sample.br_0605200 Sample.elsewhere [Sample.other]).
  - exact elsewhere_shard_archive.
  - repeat constructor. apply snapshot_prov_object.
  - intros x Hx. each_name Hx. exact other_not_belongs.
Defined.

(** C7. When the identifier parses and no entry of [data_root] is named
    by the supplier prefix, the call returns None and raises nothing. *)
Theorem no_supplier_directory (entity_iri : string) (seq : Z)
    (root : list (string * node)) :
  sequential_number_of entity_iri = Ok seq ->
  ~ In (supplier_prefix_of entity_iri) (map fst root) ->
  get_provenance_graph entity_iri (Ok (Dir root)) = Ok None.
Proof. intros Hseq Hnot. now apply (locate_no_level1 _ seq). Qed.

Lemma no_supplier_directory_061 :
  get_provenance_graph Sample.br_0605200
    (Ok (Dir [("061", Dir Sample.dir_060); ("0600", Dir Sample.dir_060)])) = Ok None.
Proof.
  apply (no_supplier_directory Sample.br_0605200 5200).
  - vm_compute. reflexivity.
  - intros Hin. each_name Hin; vm_compute in Hin; discriminate Hin.
Defined.

(** C10. When the last segment of the identifier is exactly its supplier
    prefix (the first zero after position 0 is the last character, so that
    [find] returns the last index), the remainder is empty, its conversion
    to an integer fails and the call raises ValueError, whatever
    [data_root] is.  The empty segment, where [find] returns -1, behaves
    the same. *)
Theorem bare_prefix_raises (entity_iri : string) (data_root : path) :
  Str.find "0" 1 (digits_of entity_iri) + 1
  = Z.of_nat (String.length (digits_of entity_iri)) ->
  supplier_prefix_of entity_iri = digits_of entity_iri /\
  get_provenance_graph entity_iri data_root = Raise ValueError.
Proof.
  intros Hlast.
  assert (Hprefix : supplier_prefix_of entity_iri = digits_of entity_iri)
    by (unfold supplier_prefix_of; cbv zeta; rewrite Hlast; apply slice_to_length).
  split; [exact Hprefix|].
  unfold get_provenance_graph, sequential_number_of.
  rewrite Hprefix, removeprefix_self. reflexivity.
Qed.

Lemma bare_prefix_raises_060 :
  supplier_prefix_of Sample.br_060 = "060" /\
  get_provenance_graph Sample.br_060 (Ok (Dir Sample.scenario)) = Raise ValueError.
Proof.
  apply (bare_prefix_raises Sample.br_060 (Ok (Dir Sample.scenario))).
  vm_compute. reflexivity.
Defined.

(** C3, as the code has it.  When the last segment of the identifier has
    no zero after position 0, the supplier prefix is empty and the whole
    segment is converted to an integer.  If the conversion fails, the call
    raises that error whatever [data_root] is; if the segment is an integer
    literal, nothing is raised for the identifier, and the call returns
    None under a directory none of whose entries has an empty name. *)
Theorem no_zero_after_first (entity_iri : string) :
  Str.find "0" 1 (digits_of entity_iri) = -1 ->
  supplier_prefix_of entity_iri = "" /\
  sequential_number_of entity_iri = Str.int (digits_of entity_iri) /\
  (forall e data_root,
      Str.int (digits_of entity_iri) = Raise e ->
      get_provenance_graph entity_iri data_root = Raise e) /\
  (forall k root,
      Str.int (digits_of entity_iri) = Ok k ->
      ~ In "" (map fst root) ->
      get_provenance_graph entity_iri (Ok (Dir root)) = Ok None).
Proof.
  intros Hfind.
  assert (Hprefix : supplier_prefix_of entity_iri = "")
    by (unfold supplier_prefix_of; cbv zeta; rewrite Hfind; apply slice_to_zero).
  assert (Hseq : sequential_number_of entity_iri = Str.int (digits_of entity_iri))
    by (unfold sequential_number_of; now rewrite Hprefix, removeprefix_empty).
  repeat split; try assumption.
  - intros e data_root He. unfold get_provenance_graph. now rewrite Hseq, He.
  - intros k root Hk Hnames. apply (locate_no_level1 entity_iri k).
    + now rewrite Hseq.
    + now rewrite Hprefix.
Qed.

(** A segment of letters makes the call raise before the tree is looked
    at; a segment that is a number does not. *)
Lemma no_zero_after_first_samples :
  supplier_prefix_of Sample.br_abc = "" /\
  get_provenance_graph Sample.br_abc (Raise FileNotFoundError) = Raise ValueError /\
  get_provenance_graph Sample.br_123 (Ok (Dir Sample.scenario)) = Ok None.
Proof.
  destruct (no_zero_after_first Sample.br_abc eq_refl) as (Hprefix & _ & Hraise & _).
  destruct (no_zero_after_first Sample.br_123 eq_refl) as (_ & _ & _ & Hnone).
  split; [exact Hprefix|]. split.
  - apply Hraise. vm_compute. reflexivity.
  - apply (Hnone 123).
    + vm_compute. reflexivity.
    + intros Hin. each_name Hin. discriminate Hin.
Defined.

(** C3, as stated, fails: the segment 123 has no zero after position 0,
    and the call returns None instead of raising. *)
Lemma no_zero_without_error :
  digits_of Sample.br_123 = "123" /\
  Str.find "0" 1 (digits_of Sample.br_123) = -1 /\
  get_provenance_graph Sample.br_123 (Ok (Dir Sample.scenario)) = Ok None.
Proof. repeat split; vm_compute; reflexivity. Qed.

(** *** Names that are not numbers *)

Lemma lookup_app_other {V : Type} (key name : string) (v : V)
    (before after : list (string * V)) :
  name <> key ->
  lookup key (before ++ (name, v) :: after) = lookup key (before ++ after).
Proof.
  intros Hne. induction before as [|[k w] before IH]; simpl.
  - destruct (String.eqb_spec name key) as [Heq|_]; [contradiction|reflexivity].
  - now rewrite IH.
Qed.

Lemma names_app_other {V : Type} (key name : string) (v : V)
    (before after : list (string * V)) :
  name <> key ->
  In key (map fst (before ++ (name, v) :: after)) <-> In key (map fst (before ++ after)).
Proof.
  intros Hne. rewrite !map_app, !in_app_iff. simpl. intuition.
Qed.

(** An entry of [data_root] that is not named by the supplier prefix has
    no effect on the call. *)
Lemma other_level1_entry (entity_iri name : string) (nd : node)
    (before after : list (string * node)) :
  name <> supplier_prefix_of entity_iri ->
  get_provenance_graph entity_iri (Ok (Dir (before ++ (name, nd) :: after)))
  = get_provenance_graph entity_iri (Ok (Dir (before ++ after))).
Proof.
  intros Hne. unfold get_provenance_graph.
  destruct (sequential_number_of entity_iri) as [seq|e]; [|reflexivity].
  simpl.
  set (p := supplier_prefix_of entity_iri) in *.
  destruct (in_dec string_dec p (map fst (before ++ after))) as [Hin|Hout].
  - rewrite (for_each_present p
               (fun dir => visit_dir1 entity_iri seq
                             (join (Ok (Dir (before ++ (name, nd) :: after))) dir)))
      by (now apply names_app_other).
    rewrite (for_each_present p
               (fun dir => visit_dir1 entity_iri seq (join (Ok (Dir (before ++ after))) dir)))
      by exact Hin.
    simpl. now rewrite lookup_app_other.
  - rewrite (for_each_absent p
               (fun dir => visit_dir1 entity_iri seq
                             (join (Ok (Dir (before ++ (name, nd) :: after))) dir)))
      by (intros Hin; apply Hout; now apply (names_app_other p name nd)).
    symmetry.
    exact (for_each_absent p
             (fun dir => visit_dir1 entity_iri seq (join (Ok (Dir (before ++ after))) dir))
             _ Hout).
Qed.

(** C8, as the code has it.  A level-2 name that [int] rejects (by
    [int_rejects], any name holding a letter), inside the level-1 directory
    named by the supplier prefix, makes the call raise ValueError instead
    of being skipped.  At level 1 names are compared with the supplier
    prefix and never converted: an entry with any other name, numeric or
    not, has no effect on the call. *)
Theorem non_numeric_names (entity_iri : string) (seq : Z)
    (root level1 : list (string * node)) (bad : string) :
  sequential_number_of entity_iri = Ok seq ->
  lookup (supplier_prefix_of entity_iri) root = Some (Dir level1) ->
  In bad (map fst level1) ->
  Str.int bad = Raise ValueError ->
  get_provenance_graph entity_iri (Ok (Dir root)) = Raise ValueError /\
  (forall name nd before after,
      name <> supplier_prefix_of entity_iri ->
      get_provenance_graph entity_iri (Ok (Dir (before ++ (name, nd) :: after)))
      = get_provenance_graph entity_iri (Ok (Dir (before ++ after)))).
Proof.
  intros Hseq Hdir Hin Hbad. split.
  - rewrite (locate_level1 _ _ Hseq _ _ Hdir).
    unfold visit_dir1. simpl listdir. rewrite bind_ok.
    now rewrite (sorted_int_raises _ _ Hin Hbad).
  - intros name nd before after Hne. now apply other_level1_entry.
Qed.

(** An entry [prov] at level 2 makes the call raise; entries [readme] and
    [index] at level 1 change nothing. *)
Lemma non_numeric_names_samples :
  get_provenance_graph Sample.br_0605200 (Ok (Dir Sample.with_prov_at_level2))
  = Raise ValueError /\
  get_provenance_graph Sample.br_0605200
    (Ok (Dir ([] ++ ("readme", File NotZip) :: [("060", Dir Sample.dir_060); ("index", Dir [])])))
  = get_provenance_graph Sample.br_0605200
      (Ok (Dir ([] ++ [("060", Dir Sample.dir_060); ("index", Dir [])]))).
Proof.
  destruct (non_numeric_names Sample.br_0605200 5200 Sample.with_prov_at_level2
              (("prov", Dir []) :: Sample.dir_060) "prov")
    as [Hraise Hother].
  - vm_compute. reflexivity.
  - reflexivity.
  - now left.
  - apply int_rejects. reflexivity.
  - split; [exact Hraise|]. apply Hother. vm_compute. discriminate.
Defined.

(** C8, as stated, fails at level 1: beside the supplier directory the
    entries [readme] and [index] are not numbers, and the call returns the
    object all the same. *)
Lemma level1_names_not_parsed :
  In "readme" (map fst Sample.with_readme) /\
  Str.isdigit "readme" = false /\
  Str.int "readme" = Raise ValueError /\
  get_provenance_graph Sample.br_0605200 (Ok (Dir Sample.with_readme))
  = Ok (Some (Sample.snapshot Sample.br_0605200 "6000/5300")).
Proof. repeat split; try (vm_compute; reflexivity). now left. Qed.


(** * Further properties of the locator *)

(** ** The identifier (lines 15-17) *)

Lemma split_nonempty (sep : ascii) (s : string) : Str.split sep s <> [].
Proof.
  destruct s as [|c r]; simpl; [discriminate|].
  destruct (Ascii.eqb c sep); [discriminate|].
  destruct (Str.split sep r); discriminate.
Qed.

Lemma append_String (a : string) (c : ascii) (b : string) :
  ((a ++ String c "") ++ b = a ++ String c b)%string.
Proof. induction a as [|d a IH]; simpl; [reflexivity|now rewrite IH]. Qed.

(** Splitting distributes over a separator. *)
Lemma split_app (sep : ascii) (a b : string) :
  Str.split sep (a ++ String sep b) = Str.split sep a ++ Str.split sep b.
Proof.
  induction a as [|c a IH]; simpl.
  - now rewrite Ascii.eqb_refl.
  - destruct (Ascii.eqb c sep); [now rewrite IH|].
    rewrite IH.
    destruct (Str.split sep a) as [|h t] eqn:Ha; [|reflexivity].
    now destruct (split_nonempty sep a).
Qed.

Lemma split_free (sep : ascii) (s : string) :
  free_of sep s = true -> Str.split sep s = [s].
Proof.
  induction s as [|c s IH]; simpl; [reflexivity|].
  intros H. apply andb_prop in H. destruct H as [Hc Hs].
  apply negb_true_iff in Hc. rewrite Hc, (IH Hs). reflexivity.
Qed.

Lemma last_app_nonempty {A : Type} (l1 l2 : list A) (d : A) :
  l2 <> [] -> last (l1 ++ l2) d = last l2 d.
Proof.
  intros Hne. induction l1 as [|x l1 IH]; [reflexivity|].
  simpl. destruct (l1 ++ l2) eqn:Happ; [|exact IH].
  apply app_eq_nil in Happ. destruct Happ as [_ ->]. contradiction.
Qed.

Lemma digits_of_app (base segment : string) :
  free_of "/" segment = true ->
  digits_of (base ++ String "/" segment) = segment.
Proof.
  intros Hfree. unfold digits_of.
  rewrite split_app, (split_free _ _ Hfree).
  rewrite last_app_nonempty by discriminate. reflexivity.
Qed.

Lemma startswith_take (n : nat) (s : string) : Str.startswith s (Str.take n s) = true.
Proof.
  revert s. induction n as [|n IH]; intros [|c r]; simpl; try reflexivity.
  now rewrite Ascii.eqb_refl, IH.
Qed.

Lemma take_drop (n : nat) (s : string) :
  (Str.take n s ++ Str.drop (String.length (Str.take n s)) s = s)%string.
Proof.
  revert s. induction n as [|n IH]; intros [|c r]; simpl; try reflexivity.
  now rewrite IH.
Qed.

Lemma take_app (a b : string) : Str.take (String.length a) (a ++ b) = a.
Proof. induction a as [|c a IH]; simpl; [now destruct b|now rewrite IH]. Qed.

Lemma length_append (a b : string) :
  String.length (a ++ b) = (String.length a + String.length b)%nat.
Proof. induction a as [|c a IH]; simpl; [reflexivity|now rewrite IH]. Qed.

(** The first occurrence of a character splits the string. *)
Lemma index_of_split (c : ascii) (s : string) (i : nat) :
  Str.index_of c s = Some i ->
  exists m rest, s = (m ++ String c rest)%string /\ String.length m = i /\
                 free_of c m = true.
Proof.
  revert i. induction s as [|d s IH]; simpl; intros i H; [discriminate|].
  destruct (Ascii.eqb_spec d c) as [->|Hne].
  - injection H as <-. now exists "", s.
  - destruct (Str.index_of c s) as [j|]; [|discriminate].
    injection H as <-.
    destruct (IH j eq_refl) as (m & rest & -> & Hlen & Hfree).
    exists (String d m), rest. apply Ascii.eqb_neq in Hne.
    repeat split; [now rewrite <- Hlen|].
    unfold free_of in *. simpl. now rewrite Hne, Hfree.
Qed.

Lemma index_of_app (c : ascii) (m rest : string) :
  free_of c m = true ->
  Str.index_of c (m ++ String c rest) = Some (String.length m).
Proof.
  induction m as [|d m IH]; simpl; intros H.
  - now rewrite Ascii.eqb_refl.
  - apply andb_prop in H. destruct H as [Hd Hm].
    apply negb_true_iff in Hd. now rewrite Hd, (IH Hm).
Qed.

Lemma slice_to_app (a b : string) :
  Str.slice_to (a ++ b) (Z.of_nat (String.length a)) = a.
Proof.
  unfold Str.slice_to.
  destruct (Z.ltb_spec (Z.of_nat (String.length a)) 0) as [Hneg|_]; [lia|].
  rewrite length_append, Z.min_l by lia.
  rewrite Nat2Z.id. apply take_app.
Qed.

(** The supplier prefix of a segment: up to and including the first zero
    after position 0. *)
Lemma supplier_prefix_found (c : ascii) (m rest : string) :
  free_of "0" m = true ->
  Str.slice_to (String c (m ++ String "0" rest))
    (Str.find "0" 1 (String c (m ++ String "0" rest)) + 1)
  = String c (m ++ "0").
Proof.
  intros Hfree. unfold Str.find. simpl Str.drop.
  rewrite (index_of_app _ _ _ Hfree).
  replace (Z.of_nat (1 + String.length m) + 1)
    with (Z.of_nat (String.length (String c (m ++ "0"))))
    by (simpl; rewrite length_append; simpl; lia).
  replace (String c (m ++ String "0" rest))
    with (String c (m ++ "0") ++ rest)%string
    by (simpl; now rewrite append_String).
  apply slice_to_app.
Qed.

Lemma removeprefix_app (p r : string) : Str.removeprefix (p ++ r) p = r.
Proof.
  unfold Str.removeprefix.
  assert (Hstart : Str.startswith (p ++ r) p = true).
  { induction p as [|c p IH]; simpl; [now destruct r|].
    now rewrite Ascii.eqb_refl, IH. }
  rewrite Hstart. induction p as [|c p IH]; simpl; [now destruct r|].
  apply IH. clear -Hstart. simpl in Hstart.
  now rewrite Ascii.eqb_refl in Hstart.
Qed.

(** X1. The last segment of the identifier is always the supplier prefix
    followed by the text that is converted to the sequential number:
    nothing of the segment is lost or read twice. *)
Theorem segment_is_prefix_and_number (entity_iri : string) :
  digits_of entity_iri
  = (supplier_prefix_of entity_iri
     ++ Str.removeprefix (digits_of entity_iri) (supplier_prefix_of entity_iri))%string.
Proof.
  unfold supplier_prefix_of. cbv zeta.
  set (d := digits_of entity_iri). unfold Str.slice_to.
  set (n := Z.to_nat _). unfold Str.removeprefix.
  rewrite startswith_take. symmetry. apply take_drop.
Qed.

(** X2. The supplier prefix is empty exactly when the segment has no zero
    after position 0; otherwise it is the first character, then characters
    other than zero, then a zero: at least two characters, ending in
    zero. *)
Theorem supplier_prefix_shape (entity_iri : string) :
  (Str.find "0" 1 (digits_of entity_iri) = -1 /\ supplier_prefix_of entity_iri = "") \/
  (exists c m rest,
      digits_of entity_iri = String c (m ++ String "0" rest) /\
      free_of "0" m = true /\
      Str.find "0" 1 (digits_of entity_iri) = Z.of_nat (1 + String.length m) /\
      supplier_prefix_of entity_iri = String c (m ++ "0")).
Proof.
  unfold supplier_prefix_of. cbv zeta.
  set (d := digits_of entity_iri).
  destruct (Str.index_of "0" (Str.drop 1 d)) as [i|] eqn:Hidx.
  - right. destruct d as [|c r]; [discriminate|]. simpl in Hidx.
    destruct (index_of_split _ _ _ Hidx) as (m & rest & -> & Hlen & Hfree).
    exists c, m, rest. repeat split; try assumption.
    + unfold Str.find. simpl Str.drop. now rewrite (index_of_app _ _ _ Hfree).
    + now apply supplier_prefix_found.
  - left. unfold Str.find. rewrite Hidx. split; [reflexivity|apply slice_to_zero].
Qed.

(** X3. An identifier written as a base, a slash, a supplier prefix
    (one character, zero-free characters, a zero) and a remainder parses
    back to that prefix, and its sequential number is the value of the
    remainder. *)
Theorem identifier_round_trip (base : string) (c : ascii) (m rest : string) :
  free_of "/" (String c (m ++ String "0" rest)) = true ->
  free_of "0" m = true ->
  let entity_iri := (base ++ String "/" (String c (m ++ String "0" rest)))%string in
  digits_of entity_iri = String c (m ++ String "0" rest) /\
  supplier_prefix_of entity_iri = String c (m ++ "0") /\
  sequential_number_of entity_iri = Str.int rest.
Proof.
  intros Hslash Hzero entity_iri.
  assert (Hd : digits_of entity_iri = String c (m ++ String "0" rest))
    by (now apply digits_of_app).
  assert (Hp : supplier_prefix_of entity_iri = String c (m ++ "0"))
    by (unfold supplier_prefix_of; cbv zeta; rewrite Hd;
        now apply supplier_prefix_found).
  repeat split; try assumption.
  unfold sequential_number_of. rewrite Hp, Hd.
  replace (String c (m ++ String "0" rest))
    with (String c (m ++ "0") ++ rest)%string
    by (simpl; now rewrite append_String).
  now rewrite removeprefix_app.
Qed.

Lemma identifier_round_trip_0605200 :
  digits_of Sample.br_0605200 = "0605200" /\
  supplier_prefix_of Sample.br_0605200 = "060" /\
  sequential_number_of Sample.br_0605200 = Str.int "5200".
Proof.
  apply (identifier_round_trip "https://w3id.org/oc/meta/br" "0" "6" "5200");
    reflexivity.
Defined.

(** X4. An identifier that ends in a slash has an empty last segment:
    the call raises ValueError, whatever [data_root] is. *)
Theorem trailing_slash_raises (base : string) (data_root : path) :
  get_provenance_graph (base ++ "/") data_root = Raise ValueError.
Proof.
  assert (Hd : digits_of (base ++ "/") = "") by (now apply digits_of_app).
  unfold get_provenance_graph, sequential_number_of, supplier_prefix_of.
  cbv zeta. rewrite Hd. reflexivity.
Qed.

(** ** Where a returned object comes from *)

Lemma bind_Ok_inv {A B : Type} (c : result A) (k : A -> result B) (b : B) :
  (do x <- c ;; k x) = Ok b -> exists a, c = Ok a /\ k a = Ok b.
Proof. destruct c as [a|e]; simpl; [now exists a|discriminate]. Qed.

Lemma after_loop_Return (r : option pyval) (otherwise : flow) (v : pyval) :
  otherwise <> Return v -> after_loop r otherwise = Ok (Return v) -> r = Some v.
Proof.
  destruct r as [w|]; simpl; intros Hne H.
  - now injection H as <-.
  - injection H as ->. contradiction.
Qed.

(** A loop returns only what one of its iterations returned. *)
Lemma for_each_returned {A : Type} (xs : list A) (body : A -> result flow) (v : pyval) :
  for_each xs body = Ok (Some v) -> exists x, In x xs /\ body x = Ok (Return v).
Proof.
  induction xs as [|x xs IH]; simpl; [discriminate|].
  intros H. apply bind_Ok_inv in H. destruct H as (c & Hc & H).
  destruct c as [| |w].
  - destruct (IH H) as (y & Hy & Hbody). exists y. split; [now right|exact Hbody].
  - discriminate.
  - injection H as <-. exists x. split; [now left|exact Hc].
Qed.

Lemma range_stage_returned (seq : Z) (visit : string -> result (option pyval))
    (names ordered : list string) (v : pyval) :
  sorted Str.int names = Ok ordered ->
  for_each ordered (fun name =>
    do n <- Str.int name ;;
    if seq <? n then do r <- visit name ;; after_loop r Break else Ok Next)
  = Ok (Some v) ->
  exists name k, In name names /\ Str.int name = Ok k /\ seq < k /\
                 visit name = Ok (Some v).
Proof.
  intros Hsorted H. apply for_each_returned in H.
  destruct H as (name & Hin & Hbody).
  apply bind_Ok_inv in Hbody. destruct Hbody as (k & Hk & Hbody).
  destruct (Z.ltb_spec seq k) as [Hlt|_]; [|discriminate].
  apply bind_Ok_inv in Hbody. destruct Hbody as (r & Hr & Hafter).
  apply after_loop_Return in Hafter; [|discriminate]. subst r.
  exists name, k. repeat split; try assumption.
  eapply sorted_In; eauto.
Qed.

Lemma scan_data_returned (entity_iri : string) (objs : list pyval) (v : pyval) :
  scan_data entity_iri objs = Ok (Some v) -> In v objs /\ belongs_to entity_iri v.
Proof.
  unfold scan_data. intros H. apply for_each_returned in H.
  destruct H as (obj & Hin & Hbody).
  apply bind_Ok_inv in Hbody. destruct Hbody as (id & Hid & Hbody).
  destruct (eq_str id (entity_iri ++ "/prov/")) eqn:Heq; [|discriminate].
  injection Hbody as <-. split; [exact Hin|].
  destruct obj as [| | | | | |items]; try discriminate.
  simpl in Hid. destruct (lookup "@id" items) as [w|] eqn:Hw; [|discriminate].
  injection Hid as <-.
  destruct w as [| | | |t| |]; try discriminate.
  simpl in Heq. apply String.eqb_eq in Heq. subst t. now exists items.
Qed.

(** X5. Whatever the tree holds, an object the call returns has the
    [@id] of the identifier followed by [/prov/], and it is an item of the
    [se.json] of an archive [prov/se.zip] three levels down: under the
    entry named by the supplier prefix, then an entry whose value is above
    the sequential number, then a digit-named entry whose value is above
    it. *)
Theorem returned_object_origin (entity_iri : string) (data_root : path) (obj : pyval) :
  get_provenance_graph entity_iri data_root = Ok (Some obj) ->
  exists seq n2 k2 n3 k3 data objs,
    let dir1 := join data_root (supplier_prefix_of entity_iri) in
    let dir2 := join dir1 n2 in
    let dir3 := join dir2 n3 in
    sequential_number_of entity_iri = Ok seq /\
    listed data_root (supplier_prefix_of entity_iri) /\
    listed dir1 n2 /\ Str.int n2 = Ok k2 /\ seq < k2 /\
    listed dir2 n3 /\ Str.isdigit n3 = true /\ Str.int n3 = Ok k3 /\ seq < k3 /\
    load_zip_json (join (join dir3 "prov") "se.zip") "se.json" = Ok data /\
    iter data = Ok objs /\ In obj objs /\
    belongs_to entity_iri obj.
Proof.
  unfold get_provenance_graph. cbv zeta. intros H.
  apply bind_Ok_inv in H. destruct H as (seq & Hseq & H).
  apply bind_Ok_inv in H. destruct H as (names0 & Hnames0 & H).
  apply for_each_returned in H. destruct H as (dir & Hdir & H).
  destruct (String.eqb_spec dir (supplier_prefix_of entity_iri)) as [->|_];
    [|discriminate].
  apply bind_Ok_inv in H. destruct H as (r1 & H1 & Hafter).
  apply after_loop_Return in Hafter; [|discriminate]. subst r1.
  unfold visit_dir1 in H1.
  apply bind_Ok_inv in H1. destruct H1 as (names1 & Hnames1 & H1).
  apply bind_Ok_inv in H1. destruct H1 as (ordered1 & Hsorted1 & H1).
  apply (range_stage_returned _ _ _ _ _ Hsorted1) in H1.
  destruct H1 as (n2 & k2 & Hn2 & Hk2 & Hlt2 & H2).
  unfold visit_dir2 in H2.
  apply bind_Ok_inv in H2. destruct H2 as (names2 & Hnames2 & H2).
  apply bind_Ok_inv in H2. destruct H2 as (ordered2 & Hsorted2 & H2).
  apply (range_stage_returned _ _ _ _ _ Hsorted2) in H2.
  destruct H2 as (n3 & k3 & Hn3 & Hk3 & Hlt3 & H3).
  apply filter_In in Hn3. destruct Hn3 as [Hn3 Hdigit].
  unfold visit_dir3 in H3. cbv zeta in H3.
  apply bind_Ok_inv in H3. destruct H3 as (data & Hdata & H3).
  apply bind_Ok_inv in H3. destruct H3 as (objs & Hobjs & H3).
  apply scan_data_returned in H3. destruct H3 as [Hin Hbelongs].
  exists seq, n2, k2, n3, k3, data, objs. cbv zeta.
  repeat split; try assumption.
  - now exists names0.
  - now exists names1.
  - now exists names2.
Qed.

Lemma returned_object_origin_scenario :
  exists seq n2 k2 n3 k3 data objs,
    let dir1 := join (Ok (Dir Sample.scenario)) (supplier_prefix_of Sample.br_0605200) in
    let dir2 := join dir1 n2 in
    let dir3 := join dir2 n3 in
    sequential_number_of Sample.br_0605200 = Ok seq /\
    listed (Ok (Dir Sample.scenario)) (supplier_prefix_of Sample.br_0605200) /\
    listed dir1 n2 /\ Str.int n2 = Ok k2 /\ seq < k2 /\
    listed dir2 n3 /\ Str.isdigit n3 = true /\ Str.int n3 = Ok k3 /\ seq < k3 /\
    load_zip_json (join (join dir3 "prov") "se.zip") "se.json" = Ok data /\
    iter data = Ok objs /\
    In (Sample.snapshot Sample.br_0605200 "6000/5300") objs /\
    belongs_to Sample.br_0605200 (Sample.snapshot Sample.br_0605200 "6000/5300").
Proof.
  apply (returned_object_origin Sample.br_0605200 (Ok (Dir Sample.scenario))).
  vm_compute. reflexivity.
Defined.

(** ** What the call does at the selected entries *)

Lemma locate_selected_dir2 (entity_iri : string) (root : list (string * node))
    (seq : Z) (dir2 : node) :
  selected_dir2 entity_iri root seq dir2 ->
  get_provenance_graph entity_iri (Ok (Dir root)) = visit_dir2 entity_iri seq (Ok dir2).
Proof.
  intros (level1 & n2 & Hseq & H1 & Hnum1 & Hsel1 & H2).
  rewrite (locate_level1 _ _ Hseq _ _ H1).
  now rewrite (visit_dir1_select _ _ _ _ Hnum1 Hsel1), (join_child _ _ _ H2).
Qed.

Lemma locate_selected_dir3 (entity_iri : string) (root : list (string * node))
    (shard : node) :
  selected_dir3 entity_iri root shard ->
  get_provenance_graph entity_iri (Ok (Dir root)) = visit_dir3 entity_iri (Ok shard).
Proof.
  intros (seq & level2 & n3 & Hdir2 & Hnum2 & Hsel2 & H3).
  rewrite (locate_selected_dir2 _ _ _ _ Hdir2).
  now rewrite (visit_dir2_select _ _ _ _ Hnum2 Hsel2), (join_child _ _ _ H3).
Qed.

Lemma scenario_selected_dir2 (d1000 dir2 : node) :
  selected_dir2 Edge.iri [("060", Dir [("1000", d1000); ("6000", dir2)])] 5200 dir2.
Proof.
  exists [("1000", d1000); ("6000", dir2)], "6000".
  repeat split; try reflexivity; try concrete_numeric.
  concrete_first_above 6000 ["1000"] (@nil string).
Defined.

Lemma edge_selected_dir3 (shard : node) :
  selected_dir3 Edge.iri (Edge.with_shard shard) shard.
Proof.
  exists 5200, [("5100", Dir []); ("5300", shard)], "5300".
  repeat split; try reflexivity; try concrete_numeric.
  - apply scenario_selected_dir2.
  - concrete_first_above 5300 ["5100"] (@nil string).
Defined.

(** X6. A regular file where the descent expects a directory makes the
    call raise NotADirectoryError: at the entry named by the supplier
    prefix, at the selected level-2 entry, or at the selected level-3
    entry. *)
Theorem regular_file_on_the_way (entity_iri : string) (root : list (string * node))
    (f : file) :
  (exists seq, sequential_number_of entity_iri = Ok seq /\
               lookup (supplier_prefix_of entity_iri) root = Some (File f)) \/
  (exists seq, selected_dir2 entity_iri root seq (File f)) \/
  selected_dir3 entity_iri root (File f) ->
  get_provenance_graph entity_iri (Ok (Dir root)) = Raise NotADirectoryError.
Proof.
  intros [(seq & Hseq & H1)|[(seq & H2)|H3]].
  - now rewrite (locate_level1 _ _ Hseq _ _ H1).
  - now rewrite (locate_selected_dir2 _ _ _ _ H2).
  - now rewrite (locate_selected_dir3 _ _ _ H3).
Qed.

Lemma regular_file_on_the_way_samples :
  get_provenance_graph Edge.iri (Ok (Dir Edge.file_at_level1)) = Raise NotADirectoryError /\
  get_provenance_graph Edge.iri (Ok (Dir Edge.file_at_level2)) = Raise NotADirectoryError /\
  get_provenance_graph Edge.iri (Ok (Dir (Edge.with_shard (File NotZip))))
  = Raise NotADirectoryError.
Proof.
  split; [|split].
  - apply (regular_file_on_the_way Edge.iri Edge.file_at_level1 NotZip).
    left. exists 5200. split; reflexivity.
  - apply (regular_file_on_the_way Edge.iri Edge.file_at_level2 NotZip).
    right. left. exists 5200. apply scenario_selected_dir2.
  - apply (regular_file_on_the_way Edge.iri (Edge.with_shard (File NotZip)) NotZip).
    right. right. apply edge_selected_dir3.
Defined.

(** X7. What is wrong with the archive of the selected shard is raised to
    the caller, and no other shard is tried: a missing [prov] or
    [se.zip] raises FileNotFoundError, a directory named [se.zip]
    IsADirectoryError, a file that is not a zip archive BadZipFile, an
    archive without [se.json] KeyError, and an [se.json] that cannot be
    read or parsed raises the exception of that failure, unchanged
    (JSONDecodeError for text that is not JSON, UnicodeDecodeError for
    bytes that are not UTF-8). *)
Theorem archive_errors (entity_iri : string) (root entries : list (string * node)) :
  selected_dir3 entity_iri root (Dir entries) ->
  let call := get_provenance_graph entity_iri (Ok (Dir root)) in
  (lookup "prov" entries = None -> call = Raise FileNotFoundError) /\
  (forall prov, lookup "prov" entries = Some (Dir prov) ->
     (lookup "se.zip" prov = None -> call = Raise FileNotFoundError) /\
     (forall sub, lookup "se.zip" prov = Some (Dir sub) -> call = Raise IsADirectoryError) /\
     (lookup "se.zip" prov = Some (File NotZip) -> call = Raise BadZipFile) /\
     (forall members, lookup "se.zip" prov = Some (File (Zip members)) ->
        (getinfo "se.json" members = None -> call = Raise KeyError) /\
        (forall e, getinfo "se.json" members = Some (Raise e) -> call = Raise e))).
Proof.
  intros Hsel call. unfold call. rewrite (locate_selected_dir3 _ _ _ Hsel).
  unfold visit_dir3. cbv zeta. simpl join. split.
  - intros Hprov. now rewrite Hprov.
  - intros prov Hprov. rewrite Hprov. simpl. split; [|split; [|split]].
    + intros Hzip. now rewrite Hzip.
    + intros sub Hzip. now rewrite Hzip.
    + intros Hzip. now rewrite Hzip.
    + intros members Hzip. rewrite Hzip. simpl. split.
      * intros Hinfo. now rewrite Hinfo.
      * intros e Hinfo. now rewrite Hinfo.
Qed.

Lemma archive_errors_samples :
  get_provenance_graph Edge.iri (Ok (Dir (Edge.with_shard (Dir [])))) = Raise FileNotFoundError /\
  get_provenance_graph Edge.iri
    (Ok (Dir (Edge.with_shard
                (Dir [("prov", Dir [("se.zip", File (Zip [("se.txt", Ok PNone)]))])]))))
  = Raise KeyError /\
  get_provenance_graph Edge.iri
    (Ok (Dir (Edge.with_shard
                (Dir [("prov",
                       Dir [("se.zip", File (Zip [("se.json", Raise UnicodeDecodeError)]))])]))))
  = Raise UnicodeDecodeError.
Proof.
  split; [|split].
  - destruct (archive_errors Edge.iri (Edge.with_shard (Dir [])) []
                (edge_selected_dir3 _)) as [Hmissing _].
    now apply Hmissing.
  - destruct (archive_errors Edge.iri _ _
                (edge_selected_dir3
                   (Dir [("prov", Dir [("se.zip", File (Zip [("se.txt", Ok PNone)]))])])))
      as [_ Hprov].
    destruct (Hprov [("se.zip", File (Zip [("se.txt", Ok PNone)]))] eq_refl)
      as (_ & _ & _ & Hzip).
    destruct (Hzip [("se.txt", Ok PNone)] eq_refl) as [Hkey _].
    now apply Hkey.
  - destruct (archive_errors Edge.iri _ _
                (edge_selected_dir3
                   (Dir [("prov",
                          Dir [("se.zip",
                                File (Zip [("se.json", Raise UnicodeDecodeError)]))])])))
      as [_ Hprov].
    destruct (Hprov [("se.zip", File (Zip [("se.json", Raise UnicodeDecodeError)]))]
                eq_refl)
      as (_ & _ & _ & Hzip).
    destruct (Hzip [("se.json", Raise UnicodeDecodeError)] eq_refl) as [_ Hload].
    now apply Hload.
Defined.

(** X8. When the [se.json] of the selected shard is not a JSON array:
    null, a boolean or a number raises TypeError; a non-empty object or a
    non-empty string raises TypeError as well, since its keys or characters
    are indexed like objects; an empty object or an empty string gives
    None. *)
Theorem payload_not_an_array (entity_iri : string) (root : list (string * node))
    (data : pyval) :
  shard_archive entity_iri root data ->
  match data with
  | PList _ => True
  | PDict [] | PStr EmptyString =>
      get_provenance_graph entity_iri (Ok (Dir root)) = Ok None
  | _ => get_provenance_graph entity_iri (Ok (Dir root)) = Raise TypeError
  end.
Proof.
  intros Harchive. rewrite (locate_shard_archive _ _ _ Harchive).
  destruct data as [| | | |[|c r]| |[|[k v] items]]; first [exact I|reflexivity].
Qed.

Lemma edge_shard_archive (data : pyval) :
  shard_archive Edge.iri (Edge.with_shard (Edge.holding data)) data.
Proof.
  exists 5200, [("1000", Dir []); ("6000", Dir [("5100", Dir []); ("5300", Edge.holding data)])],
    "6000", [("5100", Dir []); ("5300", Edge.holding data)], "5300", (Edge.holding data).
  repeat split; try reflexivity; try concrete_numeric.
  - concrete_first_above 6000 ["1000"] (@nil string).
  - concrete_first_above 5300 ["5100"] (@nil string).
Defined.

Lemma payload_not_an_array_object :
  get_provenance_graph Edge.iri
    (Ok (Dir (Edge.with_shard (Edge.holding (Sample.snapshot Edge.iri "alone")))))
  = Raise TypeError.
Proof.
  exact (payload_not_an_array Edge.iri _ _
           (edge_shard_archive (Sample.snapshot Edge.iri "alone"))).
Defined.

(** X9. The scan stops with an error at the first item that is not a
    provenance object, even when a later item is the entity's: KeyError
    for an object without [@id], TypeError for an item that is not an
    object. *)
Theorem malformed_item (entity_iri : string) (root : list (string * node))
    (pre post : list pyval) (bad : pyval) :
  shard_archive entity_iri root (PList (pre ++ bad :: post)) ->
  Forall prov_object pre ->
  (forall x, In x pre -> ~ belongs_to entity_iri x) ->
  ~ prov_object bad ->
  get_provenance_graph entity_iri (Ok (Dir root))
  = Raise (match bad with PDict _ => KeyError | _ => TypeError end).
Proof.
  intros Harchive Hpre Hnone Hbad.
  rewrite (locate_shard_archive _ _ _ Harchive). simpl. unfold scan_data.
  clear Harchive. revert Hnone.
  induction Hpre as [|x pre Hx Hpre IH]; intros Hnone; simpl.
  - destruct bad as [| | | | | |items]; try reflexivity.
    simpl. destruct (lookup "@id" items) as [v|] eqn:Hv; [|reflexivity].
    exfalso. apply Hbad. now exists items, v.
  - rewrite (other_object_next entity_iri x Hx (Hnone x (or_introl eq_refl))).
    simpl. apply IH. intros y Hy. apply Hnone. now right.
Qed.

Lemma malformed_item_before_match :
  get_provenance_graph Edge.iri
    (Ok (Dir (Edge.with_shard
                (Edge.holding (PList ([Sample.other] ++ PDict [("@graph", PList [])]
                                      :: [Sample.snapshot Edge.iri "late"]))))))
  = Raise KeyError.
Proof.
  apply (malformed_item Edge.iri _ [Sample.other] [Sample.snapshot Edge.iri "late"]
           (PDict [("@graph", PList [])])).
  - apply edge_shard_archive.
  - repeat constructor. apply snapshot_prov_object.
  - intros x Hx. each_name Hx. exact other_not_belongs.
  - intros (items & v & Heq & Hid). injection Heq as <-. discriminate Hid.
Defined.

(** X10. A level-3 name that passes [isdigit] but is not an integer
    literal, such as a superscript digit, is kept by the filter and makes
    the call raise ValueError. *)
Theorem digit_name_not_a_number (entity_iri : string) (root level2 : list (string * node))
    (seq : Z) (bad : string) :
  selected_dir2 entity_iri root seq (Dir level2) ->
  In bad (map fst level2) ->
  Str.isdigit bad = true ->
  Str.int bad = Raise ValueError ->
  get_provenance_graph entity_iri (Ok (Dir root)) = Raise ValueError.
Proof.
  intros Hdir2 Hin Hdigit Hbad.
  rewrite (locate_selected_dir2 _ _ _ _ Hdir2).
  unfold visit_dir2. simpl listdir. rewrite bind_ok.
  rewrite (sorted_int_raises _ bad); [reflexivity| |exact Hbad].
  apply filter_In. now split.
Qed.

Lemma digit_name_not_a_number_superscript :
  get_provenance_graph Edge.iri (Ok (Dir Edge.with_superscript)) = Raise ValueError.
Proof.
  apply (digit_name_not_a_number Edge.iri Edge.with_superscript
           [("5300", Dir []); (Edge.superscript_two, Dir [])] 5200 Edge.superscript_two).
  - exists [("6000", Dir [("5300", Dir []); (Edge.superscript_two, Dir [])])], "6000".
    repeat split; try reflexivity; try concrete_numeric.
    concrete_first_above 6000 (@nil string) (@nil string).
  - right. now left.
  - reflexivity.
  - reflexivity.
Defined.

(** X11. Only one level-2 entry is ever visited: when the selected one
    has no digit-named entry above the sequential number the call returns
    None, whatever the later level-2 entries hold. *)
Theorem no_second_level2 (entity_iri : string) (root level2 : list (string * node))
    (seq : Z) :
  selected_dir2 entity_iri root seq (Dir level2) ->
  numeric (filter Str.isdigit (map fst level2)) ->
  none_above seq (filter Str.isdigit (map fst level2)) ->
  get_provenance_graph entity_iri (Ok (Dir root)) = Ok None.
Proof.
  intros Hdir2 Hnum Hnone.
  rewrite (locate_selected_dir2 _ _ _ _ Hdir2).
  now apply visit_dir2_none.
Qed.

Lemma no_second_level2_short_range :
  get_provenance_graph Edge.iri (Ok (Dir Edge.short_range)) = Ok None.
Proof.
  apply (no_second_level2 Edge.iri Edge.short_range
           [("5100", Sample.shard [Sample.snapshot Edge.iri "6000/5100"])] 5200).
  - eexists _, "6000".
    repeat split; try reflexivity; try concrete_numeric.
    concrete_first_above 6000 (@nil string) ["9000"].
  - concrete_numeric.
  - concrete_none_above.
Defined.

(** ** The order of the listings *)

Lemma lookup_perm {V : Type} (key : string) (l l' : list (string * V)) :
  NoDup (map fst l) -> Permutation l l' -> lookup key l = lookup key l'.
Proof.
  intros Hnodup Hperm. induction Hperm as [|[k v] l l' Hperm IH|[k v] [k' v'] l|l l' l'' H1 IH1 H2 IH2].
  - reflexivity.
  - simpl. inversion Hnodup; subst. now rewrite IH.
  - simpl in *. inversion Hnodup as [|? ? Hnot _]; subst.
    destruct (String.eqb_spec k' key) as [->|Hk']; [|reflexivity].
    destruct (String.eqb_spec k key) as [->|Hk]; [|reflexivity].
    exfalso. apply Hnot. now left.
  - rewrite IH1 by exact Hnodup. apply IH2.
    eapply Permutation_NoDup; [|exact Hnodup]. now apply Permutation_map.
Qed.

Lemma filter_perm {A : Type} (f : A -> bool) (l l' : list A) :
  Permutation l l' -> Permutation (filter f l) (filter f l').
Proof.
  induction 1 as [|x l l' Hperm IH|x y l|l l' l'' H1 IH1 H2 IH2]; simpl.
  - constructor.
  - destruct (f x); [now constructor|exact IH].
  - destruct (f x), (f y); try reflexivity. apply perm_swap.
  - now transitivity (filter f l').
Qed.

Lemma first_above_perm (seq : Z) (names names' : list string) (n : string) :
  NoDup names -> Permutation names names' ->
  numeric names -> distinct_values names ->
  first_above seq names n -> first_above seq names' n.
Proof.
  intros Hnodup Hperm Hnum Hdistinct (k & before & after & Hsplit & Hn & Hk & Hmin & _).
  assert (Hin : In n names) by (rewrite Hsplit; apply in_or_app; right; now left).
  assert (Hin' : In n names') by (eapply Permutation_in; eauto).
  destruct (in_split _ _ Hin') as (before' & after' & Hsplit').
  exists k, before', after'. repeat split; try assumption.
  - intros m j Hm. apply Hmin. eapply Permutation_in; [|exact Hm].
    now apply Permutation_sym.
  - intros m Hm Hmk.
    assert (Hm' : In m names').
    { rewrite Hsplit'. apply in_or_app. now left. }
    assert (Heq : m = n).
    { apply Hdistinct; try assumption.
      - eapply Permutation_in; [|exact Hm']. now apply Permutation_sym.
      - unfold value_of. now rewrite Hmk, Hn. }
    subst m.
    assert (Hnodup' : NoDup names') by (eapply Permutation_NoDup; eauto).
    rewrite Hsplit' in Hnodup'. apply NoDup_remove_2 in Hnodup'.
    apply Hnodup'. apply in_or_app. now left.
Qed.

Lemma numeric_perm (names names' : list string) :
  Permutation names names' -> numeric names -> numeric names'.
Proof.
  intros Hperm Hnum m Hm. apply Hnum.
  eapply Permutation_in; [|exact Hm]. now apply Permutation_sym.
Qed.

Lemma none_above_perm (seq : Z) (names names' : list string) :
  Permutation names names' -> none_above seq names -> none_above seq names'.
Proof.
  intros Hperm Hnone m j Hm. apply Hnone.
  eapply Permutation_in; [|exact Hm]. now apply Permutation_sym.
Qed.

(** X12. The order in which [os.listdir] lists [data_root] does not
    matter: two listings of the same entries, with distinct names, give
    the same outcome. *)
Theorem root_listing_order (entity_iri : string) (root root' : list (string * node)) :
  NoDup (map fst root) ->
  Permutation root root' ->
  get_provenance_graph entity_iri (Ok (Dir root))
  = get_provenance_graph entity_iri (Ok (Dir root')).
Proof.
  intros Hnodup Hperm. unfold get_provenance_graph.
  destruct (sequential_number_of entity_iri) as [seq|e]; [|reflexivity].
  simpl.
  set (p := supplier_prefix_of entity_iri).
  assert (Hnames : Permutation (map fst root) (map fst root'))
    by (now apply Permutation_map).
  destruct (in_dec string_dec p (map fst root)) as [Hin|Hout].
  - rewrite (for_each_present p
               (fun dir => visit_dir1 entity_iri seq (join (Ok (Dir root)) dir)))
      by exact Hin.
    rewrite (for_each_present p
               (fun dir => visit_dir1 entity_iri seq (join (Ok (Dir root')) dir)))
      by (eapply Permutation_in; eauto).
    simpl. now rewrite (lookup_perm p _ _ Hnodup Hperm).
  - rewrite (for_each_absent p
               (fun dir => visit_dir1 entity_iri seq (join (Ok (Dir root)) dir)))
      by exact Hout.
    symmetry.
    apply (for_each_absent p
             (fun dir => visit_dir1 entity_iri seq (join (Ok (Dir root')) dir))).
    intros Hin. apply Hout. eapply Permutation_in; [|exact Hin].
    now apply Permutation_sym.
Qed.

Lemma root_listing_order_with_readme :
  get_provenance_graph Edge.iri (Ok (Dir Sample.with_readme))
  = get_provenance_graph Edge.iri
      (Ok (Dir [("060", Dir Sample.dir_060); ("readme", File NotZip); ("index", Dir [])])).
Proof.
  apply root_listing_order.
  - repeat constructor; simpl; intros H; each_name H; discriminate.
  - apply perm_swap.
Defined.

(** X13. Because the names are sorted by value, the order in which
    [os.listdir] lists a level-1 or level-2 directory does not matter
    either, as long as its names are distinct and no two of the names
    compared have the same value; with equal values the one listed first
    is taken. *)
Theorem range_listing_order (entity_iri : string) (seq : Z)
    (entries entries' : list (string * node)) :
  NoDup (map fst entries) ->
  Permutation entries entries' ->
  (numeric (map fst entries) -> distinct_values (map fst entries) ->
   visit_dir1 entity_iri seq (Ok (Dir entries))
   = visit_dir1 entity_iri seq (Ok (Dir entries'))) /\
  (numeric (filter Str.isdigit (map fst entries)) ->
   distinct_values (filter Str.isdigit (map fst entries)) ->
   visit_dir2 entity_iri seq (Ok (Dir entries))
   = visit_dir2 entity_iri seq (Ok (Dir entries'))).
Proof.
  intros Hnodup Hperm.
  assert (Hnames : Permutation (map fst entries) (map fst entries'))
    by (now apply Permutation_map).
  split; intros Hnum Hdistinct.
  - destruct (first_above_total seq _ Hnum) as [[n Hsel]|Hnone].
    + rewrite (visit_dir1_select _ _ _ _ Hnum Hsel).
      rewrite (visit_dir1_select _ _ entries' n).
      * simpl. now rewrite (lookup_perm n _ _ Hnodup Hperm).
      * exact (numeric_perm _ _ Hnames Hnum).
      * exact (first_above_perm _ _ _ _ Hnodup Hnames Hnum Hdistinct Hsel).
    + rewrite (visit_dir1_none _ _ _ Hnum Hnone).
      symmetry. apply visit_dir1_none.
      * exact (numeric_perm _ _ Hnames Hnum).
      * exact (none_above_perm _ _ _ Hnames Hnone).
  - assert (Hdigits : Permutation (filter Str.isdigit (map fst entries))
                                  (filter Str.isdigit (map fst entries')))
      by (now apply filter_perm).
    destruct (first_above_total seq _ Hnum) as [[n Hsel]|Hnone].
    + rewrite (visit_dir2_select _ _ _ _ Hnum Hsel).
      rewrite (visit_dir2_select _ _ entries' n).
      * simpl. now rewrite (lookup_perm n _ _ Hnodup Hperm).
      * exact (numeric_perm _ _ Hdigits Hnum).
      * exact (first_above_perm _ _ _ _ (NoDup_filter _ Hnodup) Hdigits Hnum
                 Hdistinct Hsel).
    + rewrite (visit_dir2_none _ _ _ Hnum Hnone).
      symmetry. apply visit_dir2_none.
      * exact (numeric_perm _ _ Hdigits Hnum).
      * exact (none_above_perm _ _ _ Hdigits Hnone).
Qed.

Lemma range_listing_order_reversed :
  visit_dir1 Edge.iri 5200 (Ok (Dir Sample.dir_060))
  = visit_dir1 Edge.iri 5200 (Ok (Dir Edge.dir_060_reversed)).
Proof.
  destruct (range_listing_order Edge.iri 5200 Sample.dir_060 Edge.dir_060_reversed)
    as [Hlevel1 _].
  - repeat constructor; simpl; intros H; each_name H; discriminate.
  - apply perm_swap.
  - apply Hlevel1.
    + concrete_numeric.
    + intros m m' Hm Hm' Hv. each_name Hm; each_name Hm'; try reflexivity;
        vm_compute in Hv; discriminate Hv.
Defined.

(** ** Ranges *)

(** X14. The outcome of a call is that of the selected shard alone: two
    trees in which the range rule selects the same level-3 entry give the
    same outcome, whatever else they hold. *)
Theorem outcome_of_selected_shard (entity_iri : string)
    (root root' : list (string * node)) (shard : node) :
  selected_dir3 entity_iri root shard ->
  selected_dir3 entity_iri root' shard ->
  get_provenance_graph entity_iri (Ok (Dir root))
  = get_provenance_graph entity_iri (Ok (Dir root')).
Proof.
  intros Hsel Hsel'.
  now rewrite (locate_selected_dir3 _ _ _ Hsel), (locate_selected_dir3 _ _ _ Hsel').
Qed.

Lemma scenario_selected_dir3 :
  selected_dir3 Edge.iri Sample.scenario
    (Sample.shard [Sample.snapshot Edge.iri "6000/5300"]).
Proof.
  exists 5200, Sample.dir_6000, "5300".
  repeat split; try reflexivity; try concrete_numeric.
  - apply scenario_selected_dir2.
  - concrete_first_above 5300 ["5100"] (@nil string).
Defined.

Lemma outcome_of_selected_shard_scenario :
  get_provenance_graph Edge.iri (Ok (Dir Sample.scenario))
  = get_provenance_graph Edge.iri
      (Ok (Dir (Edge.with_shard (Sample.shard [Sample.snapshot Edge.iri "6000/5300"])))).
Proof.
  apply (outcome_of_selected_shard Edge.iri _ _
           (Sample.shard [Sample.snapshot Edge.iri "6000/5300"])).
  - exact scenario_selected_dir3.
  - apply edge_selected_dir3.
Defined.

Lemma first_above_same_range (seq seq' k : Z) (names : list string) (n : string) :
  first_above seq names n -> Str.int n = Ok k -> seq <= seq' < k ->
  first_above seq' names n.
Proof.
  intros (k0 & before & after & Hsplit & Hn & Hk & Hmin & Hfirst) Hnk Hrange.
  assert (k0 = k) by congruence. subst k0.
  exists k, before, after. repeat split; try assumption; try lia.
  intros m j Hm Hj Hlt. apply (Hmin m j Hm Hj). lia.
Qed.

(** X15. A level-2 entry holds a range of sequential numbers: when an
    entry of value [k] is selected for a sequential number, it is selected
    for every sequential number from that one up to [k - 1], and the same
    holds at level 3. *)
Theorem same_range_same_entry (entity_iri : string) (seq seq' k : Z)
    (entries : list (string * node)) (n : string) :
  Str.int n = Ok k ->
  seq <= seq' < k ->
  (numeric (map fst entries) -> first_above seq (map fst entries) n ->
   visit_dir1 entity_iri seq' (Ok (Dir entries))
   = visit_dir2 entity_iri seq' (join (Ok (Dir entries)) n)) /\
  (numeric (filter Str.isdigit (map fst entries)) ->
   first_above seq (filter Str.isdigit (map fst entries)) n ->
   visit_dir2 entity_iri seq' (Ok (Dir entries))
   = visit_dir3 entity_iri (join (Ok (Dir entries)) n)).
Proof.
  intros Hn Hrange. split; intros Hnum Hsel.
  - apply visit_dir1_select; [exact Hnum|].
    exact (first_above_same_range _ _ _ _ _ Hsel Hn Hrange).
  - apply visit_dir2_select; [exact Hnum|].
    exact (first_above_same_range _ _ _ _ _ Hsel Hn Hrange).
Qed.

Lemma same_range_same_entry_5999 :
  visit_dir1 Edge.iri 5999 (Ok (Dir Sample.dir_060))
  = visit_dir2 Edge.iri 5999 (Ok (Dir Sample.dir_6000)).
Proof.
  destruct (same_range_same_entry Edge.iri 5200 5999 6000 Sample.dir_060 "6000")
    as [Hlevel1 _].
  - reflexivity.
  - lia.
  - apply Hlevel1.
    + concrete_numeric.
    + concrete_first_above 6000 ["1000"] (@nil string).
Defined.
